(** * Pharos MCP server: the GraphQL gateway of [src/index.ts]

    A shallow embedding of the tool handler registered by [PharosMCP.init],
    of [PharosMCP.executePharosGraphQLQuery] and of the worker's [fetch]
    router, together with the parts of the JavaScript platform they call
    ([String.prototype.slice], [JSON.stringify], [JSON.parse], the Fetch
    [Response], the zod schema of the tool). *)

From Stdlib Require Import ZArith String Ascii List Bool Lia.
From Stdlib Require Import Decimal DecimalString DecimalZ DecimalPos DecimalFacts.
Import ListNotations.
Local Open Scope string_scope.

(** ** JavaScript strings

    A JavaScript string is a sequence of code units; the embedding uses
    [string], whose characters are the code units below 256. *)

Definition DQUOTE : ascii := ascii_of_nat 34.
Definition BACKSLASH : ascii := ascii_of_nat 92.
Definition LF : ascii := ascii_of_nat 10.

(** Relative index of [String.prototype.slice]: a negative index counts
    from the end, and the result is clamped to [0 .. len]. *)
Definition relativeIndex (len i : Z) : Z :=
  if (i <? 0)%Z then Z.max (len + i) 0 else Z.min i len.

(** [s.slice(b, e)] *)
Definition slice (s : string) (b e : Z) : string :=
  let len := Z.of_nat (String.length s) in
  let from := relativeIndex len b in
  let to := relativeIndex len e in
  substring (Z.to_nat from) (Z.to_nat (Z.max (to - from) 0)) s.

(** [s.startsWith(p)] *)
Definition startsWith (s p : string) : bool := String.prefix p s.

(** [Number::toString] on the integers: the decimal digits, with a leading
    minus sign for a negative one. This is what a template literal does with
    [response.status]. *)
Definition Number_toString (n : Z) : string :=
  NilEmpty.string_of_int (Z.to_int n).

(** ** JSON values

    The values that [JSON.parse] builds and [JSON.stringify] prints. An
    object keeps its members in property order. Numbers are the integers,
    written in plain decimal digits: the only number the server itself
    produces is an HTTP status code. Fractions and exponents are outside
    the embedding. *)

Unset Elimination Schemes.
Inductive Json : Type :=
| JNull
| JBool (b : bool)
| JNum (n : Z)
| JStr (s : string)
| JArr (items : list Json)
| JObj (members : list (string * Json)).
Set Elimination Schemes.

(** Property lookup [o[key]]; [None] is [undefined]. *)
Fixpoint lookup (key : string) (members : list (string * Json)) : option Json :=
  match members with
  | [] => None
  | (k, v) :: rest => if (k =? key)%string then Some v else lookup key rest
  end.

Definition getProp (key : string) (v : Json) : option Json :=
  match v with
  | JObj members => lookup key members
  | _ => None
  end.

(** ** [JSON.stringify] (ECMAScript, SerializeJSONProperty) *)

Definition hexDigit (n : nat) : ascii :=
  ascii_of_nat (if Nat.ltb n 10 then 48 + n else 87 + n).

(** UnicodeEscape: a backslash, [u] and four lower-case hexadecimal digits. *)
Definition UnicodeEscape (c : ascii) : string :=
  let n := nat_of_ascii c in
  String BACKSLASH
    (String "u" (String "0" (String "0"
       (String (hexDigit (Nat.div n 16)) (String (hexDigit (Nat.modulo n 16)) ""))))).

(** One code unit of QuoteJSONString. *)
Definition quoteChar (c : ascii) : string :=
  let n := nat_of_ascii c in
  if Nat.eqb n 8 then String BACKSLASH "b"
  else if Nat.eqb n 9 then String BACKSLASH "t"
  else if Nat.eqb n 10 then String BACKSLASH "n"
  else if Nat.eqb n 12 then String BACKSLASH "f"
  else if Nat.eqb n 13 then String BACKSLASH "r"
  else if Nat.eqb n 34 then String BACKSLASH (String DQUOTE "")
  else if Nat.eqb n 92 then String BACKSLASH (String BACKSLASH "")
  else if Nat.ltb n 32 then UnicodeEscape c
  else String c "".

Fixpoint quoteChars (s : string) : string :=
  match s with
  | "" => ""
  | String c rest => quoteChar c ++ quoteChars rest
  end.

Definition QuoteJSONString (s : string) : string :=
  String DQUOTE (quoteChars s ++ String DQUOTE "").

Definition isEmpty (s : string) : bool :=
  match s with "" => true | _ => false end.

(** The wrapping shared by SerializeJSONArray and SerializeJSONObject:
    [partial] holds the serialized elements, [stepback] is the indentation
    of the enclosing level and [indent] the one of the elements. *)
Definition wrapPartial (gap stepback indent : string) (open close : ascii)
    (partial : list string) : string :=
  match partial with
  | [] => String open (String close "")
  | _ =>
      if isEmpty gap then
        String open (String.concat "," partial ++ String close "")
      else
        let separator := String "," (String LF indent) in
        String open (String LF indent ++ String.concat separator partial
                     ++ String LF stepback ++ String close "")
  end.

(** SerializeJSONProperty for a value at indentation [indent]. *)
Fixpoint serialize (gap indent : string) (v : Json) : string :=
  match v with
  | JNull => "null"
  | JBool true => "true"
  | JBool false => "false"
  | JNum n => Number_toString n
  | JStr s => QuoteJSONString s
  | JArr items =>
      wrapPartial gap indent (indent ++ gap) "[" "]"
        (map (serialize gap (indent ++ gap)) items)
  | JObj members =>
      wrapPartial gap indent (indent ++ gap) "{" "}"
        (map (fun kv =>
                QuoteJSONString (fst kv) ++ ":"
                ++ (if isEmpty gap then "" else " ")
                ++ serialize gap (indent ++ gap) (snd kv))
             members)
  end.

Fixpoint spaces (n : nat) : string :=
  match n with
  | O => ""
  | S k => String " " (spaces k)
  end.

(** [JSON.stringify(v)] and [JSON.stringify(v, null, n)]: a numeric third
    argument gives a gap of [min(n, 10)] spaces. *)
Definition JSON_stringify (v : Json) : string := serialize "" "" v.

Definition JSON_stringify_pretty (v : Json) (n : nat) : string :=
  serialize (spaces (Nat.min n 10)) "" v.

(** ** [JSON.parse]

    A recursive-descent reader of JSON text, for the values of [Json].
    [fuel] bounds the number of nested calls; [JSON_parse] starts it with
    the length of the text, which is enough for every text that
    [JSON.stringify] prints ([cost_le_length]). *)

Definition isWhitespace (c : ascii) : bool :=
  let n := nat_of_ascii c in
  Nat.eqb n 32 || Nat.eqb n 9 || Nat.eqb n 10 || Nat.eqb n 13.

Fixpoint skipWhitespace (s : string) : string :=
  match s with
  | "" => ""
  | String c rest => if isWhitespace c then skipWhitespace rest else s
  end.

Definition hexValue (c : ascii) : option nat :=
  let n := nat_of_ascii c in
  if Nat.leb 48 n && Nat.leb n 57 then Some (n - 48)
  else if Nat.leb 97 n && Nat.leb n 102 then Some (n - 87)
  else if Nat.leb 65 n && Nat.leb n 70 then Some (n - 55)
  else None.

Definition hex4 (h1 h2 h3 h4 : ascii) : option nat :=
  match hexValue h1, hexValue h2, hexValue h3, hexValue h4 with
  | Some a, Some b, Some c, Some d => Some (((a * 16 + b) * 16 + c) * 16 + d)
  | _, _, _, _ => None
  end.

(** The character a two-character escape stands for. *)
Definition simpleEscape (e : ascii) : option ascii :=
  let n := nat_of_ascii e in
  if Nat.eqb n 34 then Some DQUOTE
  else if Nat.eqb n 92 then Some BACKSLASH
  else if Nat.eqb n 47 then Some "/"%char
  else if Nat.eqb n 98 then Some (ascii_of_nat 8)
  else if Nat.eqb n 102 then Some (ascii_of_nat 12)
  else if Nat.eqb n 110 then Some (ascii_of_nat 10)
  else if Nat.eqb n 114 then Some (ascii_of_nat 13)
  else if Nat.eqb n 116 then Some (ascii_of_nat 9)
  else None.

Definition consChar (c : ascii) (r : option (string * string)) : option (string * string) :=
  match r with
  | Some (str, rest) => Some (String c str, rest)
  | None => None
  end.

(** The characters of a string literal, after its opening quote, up to and
    including the closing quote. *)
Fixpoint parseChars (s : string) : option (string * string) :=
  match s with
  | "" => None
  | String c rest =>
      if Ascii.eqb c DQUOTE then Some ("", rest)
      else if Ascii.eqb c BACKSLASH then
        match rest with
        | "" => None
        | String e rest1 =>
            match simpleEscape e with
            | Some c' => consChar c' (parseChars rest1)
            | None =>
                if Ascii.eqb e "u" then
                  match rest1 with
                  | String h1 (String h2 (String h3 (String h4 rest2))) =>
                      match hex4 h1 h2 h3 h4 with
                      | Some n =>
                          if Nat.ltb n 256
                          then consChar (ascii_of_nat n) (parseChars rest2)
                          else None
                      | None => None
                      end
                  | _ => None
                  end
                else None
            end
        end
      else if Nat.ltb (nat_of_ascii c) 32 then None
      else consChar c (parseChars rest)
  end.

Definition isDigit (c : ascii) : bool :=
  match uint_of_char c (Some Nil) with
  | Some _ => true
  | None => false
  end.

(** The longest run of decimal digits at the head of [s]. *)
Fixpoint readDigits (s : string) : uint * string :=
  match s with
  | "" => (Nil, "")
  | String c rest =>
      if isDigit c then
        let (d, rest') := readDigits rest in
        match uint_of_char c (Some d) with
        | Some d' => (d', rest')
        | None => (Nil, s)
        end
      else (Nil, s)
  end.

(** An integer literal: an optional minus sign and digits without a
    superfluous leading zero. *)
Definition parseNumber (s : string) : option (Json * string) :=
  let (negative, s1) :=
    match s with
    | String c rest => if Ascii.eqb c "-" then (true, rest) else (false, s)
    | "" => (false, s)
    end in
  let (d, rest) := readDigits s1 in
  if uint_beq (unorm d) d
  then Some (JNum (Z.of_int (if negative then Neg d else Pos d)), rest)
  else None.

Fixpoint stripPrefix (word s : string) : option string :=
  match word with
  | "" => Some s
  | String a word' =>
      match s with
      | String b s' => if Ascii.eqb a b then stripPrefix word' s' else None
      | "" => None
      end
  end.

(** A literal name: [null], [true] or [false]. *)
Definition expect (word : string) (v : Json) (s : string) : option (Json * string) :=
  match stripPrefix word s with
  | Some rest => Some (v, rest)
  | None => None
  end.

Fixpoint parseValue (fuel : nat) (s : string) : option (Json * string) :=
  match fuel with
  | O => None
  | S fuel' =>
      match skipWhitespace s with
      | "" => None
      | String c rest as s' =>
          if Ascii.eqb c "n" then expect "null" JNull s'
          else if Ascii.eqb c "t" then expect "true" (JBool true) s'
          else if Ascii.eqb c "f" then expect "false" (JBool false) s'
          else if Ascii.eqb c DQUOTE then
            match parseChars rest with
            | Some (str, rest') => Some (JStr str, rest')
            | None => None
            end
          else if Ascii.eqb c "[" then
            match skipWhitespace rest with
            | String c' rest' =>
                if Ascii.eqb c' "]" then Some (JArr [], rest')
                else match parseElements fuel' rest with
                     | Some (items, rest'') => Some (JArr items, rest'')
                     | None => None
                     end
            | "" => None
            end
          else if Ascii.eqb c "{" then
            match skipWhitespace rest with
            | String c' rest' =>
                if Ascii.eqb c' "}" then Some (JObj [], rest')
                else match parseMembers fuel' rest with
                     | Some (members, rest'') => Some (JObj members, rest'')
                     | None => None
                     end
            | "" => None
            end
          else if Ascii.eqb c "-" || isDigit c then parseNumber s'
          else None
      end
  end

with parseElements (fuel : nat) (s : string) : option (list Json * string) :=
  match fuel with
  | O => None
  | S fuel' =>
      match parseValue fuel' s with
      | None => None
      | Some (v, rest) =>
          match skipWhitespace rest with
          | "" => None
          | String c rest' =>
              if Ascii.eqb c "]" then Some ([v], rest')
              else if Ascii.eqb c "," then
                match parseElements fuel' rest' with
                | Some (vs, rest'') => Some (v :: vs, rest'')
                | None => None
                end
              else None
          end
      end
  end

with parseMembers (fuel : nat) (s : string) : option (list (string * Json) * string) :=
  match fuel with
  | O => None
  | S fuel' =>
      match skipWhitespace s with
      | "" => None
      | String q rest =>
          if Ascii.eqb q DQUOTE then
            match parseChars rest with
            | None => None
            | Some (key, rest1) =>
                match skipWhitespace rest1 with
                | "" => None
                | String colon rest2 =>
                    if Ascii.eqb colon ":" then
                      match parseValue fuel' rest2 with
                      | None => None
                      | Some (v, rest3) =>
                          match skipWhitespace rest3 with
                          | "" => None
                          | String c rest4 =>
                              if Ascii.eqb c "}" then Some ([(key, v)], rest4)
                              else if Ascii.eqb c "," then
                                match parseMembers fuel' rest4 with
                                | Some (kvs, rest5) => Some ((key, v) :: kvs, rest5)
                                | None => None
                                end
                              else None
                          end
                      end
                    else None
                end
            end
          else None
      end
  end.

(** [JSON.parse(text)], as a reader of the document: the members of an
    object are kept as they are written ([internalize] makes the object
    of them). [None] stands for the SyntaxError it throws. A text with a
    fraction, an exponent or an escape above 255 is outside the embedding
    and is not accepted. *)
Definition JSON_parse (text : string) : option Json :=
  match parseValue (String.length text) text with
  | Some (v, rest) => if isEmpty (skipWhitespace rest) then Some v else None
  | None => None
  end.

(** ** Effects: thrown values, awaited results, the trace *)

(** A thrown value: an [Error] with its [message], or any other value,
    kept as what [String(value)] makes of it. *)
Inductive Thrown : Type :=
| ThrownError (message : string)
| ThrownOther (asString : string).

(** The settled state of an awaited promise, or the result of a call. *)
Inductive Outcome (A : Type) : Type :=
| Returns (a : A)
| Throws (e : Thrown).
Arguments Returns {A} a.
Arguments Throws {A} e.

(** [RequestInit]: the second argument of the global [fetch]. *)
Record RequestInit : Type := {
  method : string;
  headers : list (string * string);
  body : string
}.

(** The [Response] the global [fetch] resolves to, as the executor uses it:
    [status], and what the promises of [json()] and [text()] settle to at
    the points where the executor awaits them ([text()] is only called
    after [json()] has rejected). *)
Module Response.
Record t : Type := {
  status : Z;
  json : Outcome Json;
  text : Outcome string
}.

(** [response.ok]: the Fetch standard's "ok status", 200 to 299. *)
Definition ok (r : t) : bool :=
  (200 <=? status r)%Z && (status r <=? 299)%Z.
End Response.

(** What the network answers to a request: a response, or the value the
    promise of [fetch] rejects with. *)
Definition Network : Type := string -> RequestInit -> Outcome Response.t.

(** The observable effects, in the order they happen. *)
Inductive Event : Type :=
| ConsoleError (line : string)
| Fetch (url : string) (init : RequestInit)
| ServeSSE (mount : string) (pathname : string).

(** A computation that may throw and that extends the trace. *)
Definition M (A : Type) : Type := list Event -> Outcome A * list Event.

Definition ret {A : Type} (a : A) : M A := fun tr => (Returns a, tr).

Definition bind {A B : Type} (m : M A) (k : A -> M B) : M B :=
  fun tr =>
    match m tr with
    | (Returns a, tr') => k a tr'
    | (Throws e, tr') => (Throws e, tr')
    end.

Notation "x <- m ;; k" := (bind m (fun x => k))
  (at level 61, m at next level, right associativity).
Notation "m ;; k" := (bind m (fun _ => k))
  (at level 61, right associativity).

(** [try { body } catch (e) { handler e }] *)
Definition tryCatch {A : Type} (body : M A) (handler : Thrown -> M A) : M A :=
  fun tr =>
    match body tr with
    | (Returns a, tr') => (Returns a, tr')
    | (Throws e, tr') => handler e tr'
    end.

Definition await {A : Type} (o : Outcome A) : M A := fun tr => (o, tr).

Definition console_error (line : string) : M unit :=
  fun tr => (Returns tt, (tr ++ [ConsoleError line])%list).

(** The global [fetch(url, init)]. *)
Definition fetch (net : Network) (url : string) (init : RequestInit) : M Response.t :=
  fun tr => (net url init, (tr ++ [Fetch url init])%list).

(** ** Objects as [JSON.parse] builds them

    [JSON_parse] reads a text as a document: it keeps the members of an
    object as they are written. The value that [JSON.parse] hands out is
    built from it member by member with CreateDataProperty: a key that
    comes again replaces the value and keeps the place, and the keys that
    are array indices come first, in ascending order. *)

(** The array index a key stands for: the canonical decimal form of an
    integer from 0 to 2^32 - 2. *)
Definition arrayIndex (key : string) : option Z :=
  match NilEmpty.uint_of_string key with
  | Some d =>
      if uint_beq (unorm d) d && (Z.of_uint d <=? 4294967294)%Z
      then Some (Z.of_uint d)
      else None
  | None => None
  end.

Fixpoint hasKey (key : string) (members : list (string * Json)) : bool :=
  match members with
  | [] => false
  | (k, _) :: rest => (k =? key)%string || hasKey key rest
  end.

Fixpoint replaceValue (key : string) (v : Json) (members : list (string * Json))
    : list (string * Json) :=
  match members with
  | [] => []
  | (k, v') :: rest =>
      if (k =? key)%string then (k, v) :: rest
      else (k, v') :: replaceValue key v rest
  end.

(** The place of a new key: an array index goes before the first name and
    before the first larger index, a name goes to the end. *)
Fixpoint insertNew (key : string) (v : Json) (members : list (string * Json))
    : list (string * Json) :=
  match members with
  | [] => [(key, v)]
  | (k, v') :: rest =>
      match arrayIndex key with
      | Some i =>
          match arrayIndex k with
          | Some j =>
              if (i <? j)%Z then (key, v) :: members
              else (k, v') :: insertNew key v rest
          | None => (key, v) :: members
          end
      | None => (k, v') :: insertNew key v rest
      end
  end.

(** CreateDataProperty on an ordinary object. *)
Definition defineProperty (key : string) (v : Json) (members : list (string * Json))
    : list (string * Json) :=
  if hasKey key members then replaceValue key v members
  else insertNew key v members.

(** The value [JSON.parse] builds from a document. *)
Fixpoint internalize (v : Json) : Json :=
  match v with
  | JArr items => JArr (map internalize items)
  | JObj members =>
      JObj (fold_left (fun object kv => defineProperty (fst kv) (snd kv) object)
                      (map (fun kv => (fst kv, internalize (snd kv))) members)
                      [])
  | _ => v
  end.

(** The [Response] of a network fetch, by the Fetch standard's body mixin:
    the body is a stream that is consumed once. [json()] reads it to the
    end and parses the text; a [text()] after that finds the body disturbed
    and rejects with a TypeError. A response with a null body (one with
    status 204 or 304, say) reads as the empty text and is never disturbed.
    The bodies this covers are the texts of the embedding: JSON whose
    numbers are integers and whose characters are below 256. *)
Definition networkResponse (status : Z) (responseBody : option string) : Response.t :=
  {| Response.status := status;
     Response.json :=
       match JSON_parse (match responseBody with Some b => b | None => "" end) with
       | Some v => Returns (internalize v)
       | None => Throws (ThrownError "Unexpected token in JSON")
       end;
     Response.text :=
       match responseBody with
       | None => Returns ""
       | Some _ => Throws (ThrownError "Body has already been used.")
       end |}.

(** ** The tool's input schema (zod) *)

Inductive ZodType : Type :=
| ZodString
| ZodAny
| ZodRecord (valueType : ZodType)
| ZodOptional (inner : ZodType).

(** Whether a schema accepts a value; [None] is [undefined]. *)
Fixpoint zodAccepts (t : ZodType) (v : option Json) : bool :=
  match t with
  | ZodString => match v with Some (JStr _) => true | _ => false end
  | ZodAny => true
  | ZodRecord valueType =>
      match v with
      | Some (JObj members) =>
          forallb (fun kv => zodAccepts valueType (Some (snd kv))) members
      | _ => false
      end
  | ZodOptional inner =>
      match v with
      | None => true
      | Some _ => zodAccepts inner v
      end
  end.

(** The parameters the handler is called with. *)
Record Invocation : Type := {
  query : string;
  variables : option (list (string * Json))
}.

(** The MCP tool result the handler returns. *)
Record TextContent : Type := {
  type : string;
  text : string
}.

Record CallToolResult : Type := {
  content : list TextContent
}.

(** ** [class PharosMCP] *)

Module PharosMCP.

Definition PHAROS_GRAPHQL_ENDPOINT : string := "https://pharos-api.ncats.io/graphql".

(** The shape passed to [this.server.tool]:
    [{ query: z.string(), variables: z.record(z.any()).optional() }]. *)
Definition inputSchema : list (string * ZodType) :=
  [ ("query", ZodString);
    ("variables", ZodOptional (ZodRecord ZodAny)) ].

(** The arguments of a tool call checked against [inputSchema]: they are
    rejected when a declared property is not accepted by its schema;
    otherwise the handler receives the two declared properties as they
    are (a string and a record of anything are not converted). *)
Definition parseArguments (args : list (string * Json)) : option Invocation :=
  if forallb (fun field => zodAccepts (snd field) (lookup (fst field) args)) inputSchema
  then
    Some {| query := match lookup "query" args with
                     | Some (JStr q) => q
                     | _ => ""
                     end;
            variables := match lookup "variables" args with
                         | Some (JObj vs) => Some vs
                         | _ => None
                         end |}
  else None.

Definition requestHeaders : list (string * string) :=
  [ ("Content-Type", "application/json");
    ("User-Agent",
     "MCPPharosServer/1.0.0 (ModelContextProtocol; +https://modelcontextprotocol.io)") ].

(** [bodyData]: [{ query }], with [variables] added when it is truthy
    (an object always is). *)
Definition bodyData (query : string) (variables : option (list (string * Json))) : Json :=
  JObj (("query", JStr query)
        :: match variables with
           | Some vs => [("variables", JObj vs)]
           | None => []
           end).

Definition requestInit (query : string) (variables : option (list (string * Json)))
    : RequestInit :=
  {| method := "POST";
     headers := requestHeaders;
     body := JSON_stringify (bodyData query variables) |}.

(** The three error objects the executor builds. *)
Definition NonJsonResponse (status : Z) (errorText : string) : Json :=
  JObj [("errors", JArr [JObj
    [ ("message", JStr ("Pharos API Error " ++ Number_toString status
                        ++ ": Non-JSON response."));
      ("extensions", JObj [ ("statusCode", JNum status);
                            ("responseText", JStr (slice errorText 0 1000)) ]) ]])].

Definition GraphQLHttpError (status : Z) (responseBody : Json) : Json :=
  JObj [("errors", JArr [JObj
    [ ("message", JStr ("Pharos API HTTP Error " ++ Number_toString status));
      ("extensions", JObj [ ("statusCode", JNum status);
                            ("responseBody", responseBody) ]) ]])].

Definition TransportFailure (errorMessage : string) : Json :=
  JObj [("errors", JArr [JObj
    [ ("message", JStr errorMessage);
      ("extensions", JObj [ ("clientError", JBool true) ]) ]])].

(** [error instanceof Error ? error.message : String(error)] *)
Definition errorMessageOf (error : Thrown) : string :=
  match error with
  | ThrownError message => message
  | ThrownOther asString => asString
  end.

(** The inner [try]/[catch] either leaves [responseBody] assigned or
    returns from the function. *)
Inductive Flow : Type :=
| Assigned (responseBody : Json)
| Return (result : Json).

Definition executePharosGraphQLQuery (net : Network) (query : string)
    (variables : option (list (string * Json))) : M Json :=
  tryCatch
    (console_error ("Making GraphQL request to: " ++ PHAROS_GRAPHQL_ENDPOINT) ;;
     response <- fetch net PHAROS_GRAPHQL_ENDPOINT (requestInit query variables) ;;
     console_error ("Pharos API response status: "
                    ++ Number_toString (Response.status response)) ;;
     flow <- tryCatch
               (responseBody <- await (Response.json response) ;;
                ret (Assigned responseBody))
               (fun _ =>
                  errorText <- await (Response.text response) ;;
                  console_error ("Pharos API response is not JSON. Status: "
                                 ++ Number_toString (Response.status response)
                                 ++ ", Body: " ++ slice errorText 0 500) ;;
                  ret (Return (NonJsonResponse (Response.status response) errorText))) ;;
     match flow with
     | Return result => ret result
     | Assigned responseBody =>
         if negb (Response.ok response) then
           console_error ("Pharos API HTTP Error "
                          ++ Number_toString (Response.status response)
                          ++ ": " ++ JSON_stringify responseBody) ;;
           ret (GraphQLHttpError (Response.status response) responseBody)
         else ret responseBody
     end)
    (fun error =>
       console_error ("Client-side error during Pharos GraphQL request: "
                      ++ errorMessageOf error) ;;
       ret (TransportFailure (errorMessageOf error))).

(** The handler registered for the tool [pharos_graphql_query]. *)
Definition pharos_graphql_query (net : Network) (inv : Invocation) : M CallToolResult :=
  console_error ("Executing pharos_graphql_query with query: "
                 ++ slice (query inv) 0 200 ++ "...") ;;
  match variables inv with
  | Some vs =>
      console_error ("With variables: "
                     ++ slice (JSON_stringify (JObj vs)) 0 150 ++ "...")
  | None => ret tt
  end ;;
  result <- executePharosGraphQLQuery net (query inv) (variables inv) ;;
  ret {| content := [ {| type := "text";
                         text := JSON_stringify_pretty result 2 |} ] |}.

End PharosMCP.

(** ** The worker's default export *)

Module Worker.

(** The incoming request, by the [pathname] of [new URL(request.url)]. *)
Record Request : Type := {
  pathname : string
}.

(** [new Response(body, { status, headers })] *)
Record ServerResponse : Type := {
  responseBody : string;
  responseStatus : Z;
  responseHeaders : list (string * string)
}.

(** [PharosMCP.serveSSE(mount).fetch(request, env, ctx)]: the transport
    of the agents framework, not part of this repository. *)
Definition Transport : Type := string -> Request -> Outcome ServerResponse.

Definition serveSSE (transport : Transport) (mount : string) (request : Request)
    : M ServerResponse :=
  fun tr => (transport mount request, (tr ++ [ServeSSE mount (pathname request)])%list).

Definition notFoundBody : string :=
  "Pharos MCP Server - Path not found." ++ String LF
    ("Available MCP paths:" ++ String LF
       "- /sse (for Server-Sent Events transport)").

Definition notFound : ServerResponse :=
  {| responseBody := notFoundBody;
     responseStatus := 404;
     responseHeaders := [("Content-Type", "text/plain")] |}.

(** The guard of the router. *)
Definition isSsePath (p : string) : bool :=
  (p =? "/sse")%string || startsWith p "/sse/".

Definition fetch (transport : Transport) (request : Request) : M ServerResponse :=
  if isSsePath (pathname request) then
    serveSSE transport "/sse" request
  else
    console_error ("Pharos MCP Server. Requested path " ++ pathname request
                   ++ " not found. Listening for SSE on /sse.") ;;
    ret notFound.

End Worker.

(** ** Reading a result *)

(** [result.errors[0].extensions[key]] *)
Definition errorExtension (key : string) (result : Json) : option Json :=
  match getProp "errors" result with
  | Some (JArr (first :: _)) =>
      match getProp "extensions" first with
      | Some extensions => getProp key extensions
      | None => None
      end
  | _ => None
  end.

(** [result.errors[0].message] *)
Definition errorMessage (result : Json) : option Json :=
  match getProp "errors" result with
  | Some (JArr (first :: _)) => getProp "message" first
  | _ => None
  end.

(** The [Fetch] events of a trace: the HTTP requests that were sent. *)
Fixpoint requestsSent (tr : list Event) : list (string * RequestInit) :=
  match tr with
  | [] => []
  | Fetch url init :: rest => (url, init) :: requestsSent rest
  | _ :: rest => requestsSent rest
  end.

(** The [ServeSSE] events of a trace: the calls into the transport. *)
Fixpoint transportCalls (tr : list Event) : list (string * string) :=
  match tr with
  | [] => []
  | ServeSSE mount p :: rest => (mount, p) :: transportCalls rest
  | _ :: rest => transportCalls rest
  end.

(** ** Notions used to state the round trip of [JSON.parse] and
    [JSON.stringify] *)

(** [s] does not go on with a digit: a number printed before [s] ends where
    [s] starts. *)
Definition headNotDigit (s : string) : Prop :=
  match s with
  | "" => True
  | String c _ => isDigit c = false
  end.

Fixpoint allWhitespace (s : string) : bool :=
  match s with
  | "" => true
  | String c rest => isWhitespace c && allWhitespace rest
  end.

(** The fuel that reading a value back takes. *)
Fixpoint cost (v : Json) : nat :=
  match v with
  | JArr items => S (list_sum (map (fun v => S (cost v)) items))
  | JObj members => S (list_sum (map (fun kv => S (cost (snd kv))) members))
  | _ => 1
  end.

(** The characters a serialized value can start with. *)
Definition valueStart (c : ascii) : bool :=
  Ascii.eqb c "n" || Ascii.eqb c "t" || Ascii.eqb c "f" || Ascii.eqb c DQUOTE
  || Ascii.eqb c "[" || Ascii.eqb c "{" || Ascii.eqb c "-" || isDigit c.

(** One member of an object, as SerializeJSONObject prints it. *)
Definition member (gap indent : string) (kv : string * Json) : string :=
  QuoteJSONString (fst kv) ++ ":"
  ++ (if isEmpty gap then "" else " ")
  ++ serialize gap indent (snd kv).

(** The serialization of [v], at any indentation and after any white
    space, is read back as [v], and the reader stops right behind it. *)
Definition reads (gap : string) (v : Json) : Prop :=
  forall indent w rest fuel,
    allWhitespace indent = true ->
    allWhitespace w = true ->
    headNotDigit rest ->
    cost v <= fuel ->
    parseValue fuel (w ++ serialize gap indent v ++ rest) = Some (v, rest).


(** ** Outcomes, traces and sample inputs used in the statements *)

Import PharosMCP.

(** The three error variants of an executor result, by their shape. *)
Definition isGraphQLHttpError (result : Json) : Prop :=
  exists status responseBody, result = GraphQLHttpError status responseBody.

Definition isNonJsonResponse (result : Json) : Prop :=
  exists status errorText, result = NonJsonResponse status errorText.


(** What the handler logs before it calls the executor. *)
Definition handlerLog (inv : Invocation) : list Event :=
  ConsoleError ("Executing pharos_graphql_query with query: "
                ++ slice (query inv) 0 200 ++ "...")
  :: match variables inv with
     | Some vs =>
         [ConsoleError ("With variables: "
                        ++ slice (JSON_stringify (JObj vs)) 0 150 ++ "...")]
     | None => []
     end.

(** The envelope the handler wraps a result in. *)
Definition textResult (result : Json) : CallToolResult :=
  {| content := [ {| type := "text"; text := JSON_stringify_pretty result 2 |} ] |}.

(** What the executor logs and sends before the response is there. *)
Definition executorLog (query : string) (variables : option (list (string * Json)))
  : list Event :=
  [ ConsoleError ("Making GraphQL request to: " ++ PHAROS_GRAPHQL_ENDPOINT);
    Fetch PHAROS_GRAPHQL_ENDPOINT (requestInit query variables) ].

Definition statusLog (r : Response.t) : Event :=
  ConsoleError ("Pharos API response status: " ++ Number_toString (Response.status r)).

Definition notFoundLog (request : Worker.Request) : Event :=
  ConsoleError ("Pharos MCP Server. Requested path " ++ Worker.pathname request
                ++ " not found. Listening for SSE on /sse.").

(** The arguments of a tool call that carries [q] and, if any, [vars]. *)
Definition toolArguments (q : string) (vars : option (list (string * Json)))
  : list (string * Json) :=
  ("query", JStr q)
  :: match vars with
     | Some vs => [("variables", JObj vs)]
     | None => []
     end.

Definition htmlBody : string := "<html>Bad Gateway</html>".


(** A GraphQL-level error, as the upstream sends it with status 200. *)
Definition syntaxErrorBody : Json :=
  JObj [("errors", JArr [JObj [("message", JStr "Syntax Error")]])].

(** A network that answers every request with [r]. *)
Definition respondWith (r : Response.t) : Network := fun _ _ => Returns r.


(** A response with status 500 whose body is not JSON and whose [text()]
    still delivers it. *)
Definition readableHtml : Response.t :=
  {| Response.status := 500;
     Response.json := Throws (ThrownError "Unexpected token in JSON");
     Response.text := Returns htmlBody |}.

Definition eventStream : Worker.ServerResponse :=
  {| Worker.responseBody := "event: endpoint";
     Worker.responseStatus := 200;
     Worker.responseHeaders := [("Content-Type", "text/event-stream")] |}.

Definition sampleTransport : Worker.Transport := fun _ _ => Returns eventStream.

(** The shape the three error objects share:
    [{ errors: [ { message, extensions } ] }]. *)
Definition errorShape (result : Json) : Prop :=
  exists message extensions,
    result = JObj [("errors", JArr [JObj [ ("message", JStr message);
                                           ("extensions", JObj extensions) ]])].

(** A response whose body can be read neither as JSON nor as text. *)
Definition unreadable : Response.t :=
  {| Response.status := 200;
     Response.json := Throws (ThrownError "Unexpected end of JSON input");
     Response.text := Throws (ThrownOther "stream reset") |}.

(** A transport whose [fetch] rejects. *)
Definition failingTransport : Worker.Transport :=
  fun _ _ => Throws (ThrownError "transport closed").




(** A body that is no JSON text for any reader: it is empty or blank, or
    its first character that is not white space cannot start a value. *)
Definition cannotBeJson (responseBody : string) : bool :=
  match skipWhitespace responseBody with
  | "" => true
  | String c _ => negb (valueStart c)
  end.


(** * Properties *)

(** ** Round trip of [JSON.stringify] and [JSON.parse] *)

Lemma Json_ind (P : Json -> Prop)
    (Hnull : P JNull)
    (Hbool : forall b, P (JBool b))
    (Hnum : forall n, P (JNum n))
    (Hstr : forall s, P (JStr s))
    (Harr : forall items, Forall P items -> P (JArr items))
    (Hobj : forall members, Forall (fun kv => P (snd kv)) members -> P (JObj members)) :
  forall v, P v.
Proof.
  fix IH 1. intros [ | b | n | s | items | members ].
  - exact Hnull.
  - apply Hbool.
  - apply Hnum.
  - apply Hstr.
  - apply Harr. induction items as [ | v items IHitems ].
    + constructor.
    + constructor; [ apply IH | exact IHitems ].
  - apply Hobj. induction members as [ | [k v] members IHmembers ].
    + constructor.
    + constructor; [ apply IH | exact IHmembers ].
Qed.

Lemma append_assoc (a b c : string) : (a ++ b) ++ c = a ++ (b ++ c).
Proof. induction a as [ | x a IH ]; simpl; [ reflexivity | now rewrite IH ]. Qed.

Lemma append_nil_r (a : string) : a ++ "" = a.
Proof. induction a as [ | x a IH ]; simpl; [ reflexivity | now rewrite IH ]. Qed.

Lemma length_append (a b : string) :
  String.length (a ++ b) = String.length a + String.length b.
Proof. induction a as [ | x a IH ]; simpl; [ reflexivity | now rewrite IH ]. Qed.

Lemma parseChars_quoteChar (c : ascii) (tail : string) :
  parseChars (quoteChar c ++ tail) = consChar c (parseChars tail).
Proof.
  destruct c as [[|] [|] [|] [|] [|] [|] [|] [|]]; reflexivity.
Qed.

Lemma parseChars_quoteChars (s rest : string) :
  parseChars (quoteChars s ++ String DQUOTE rest) = Some (s, rest).
Proof.
  induction s as [ | c s IH ]; simpl.
  - reflexivity.
  - rewrite append_assoc, parseChars_quoteChar, IH. reflexivity.
Qed.

Lemma readDigits_headNotDigit (rest : string) :
  headNotDigit rest -> readDigits rest = (Nil, rest).
Proof.
  destruct rest as [ | c rest ]; simpl; [ reflexivity | ].
  intros ->. reflexivity.
Qed.

Lemma readDigits_string_of_uint (d : uint) (rest : string) :
  headNotDigit rest ->
  readDigits (NilEmpty.string_of_uint d ++ rest) = (d, rest).
Proof.
  intros Hrest.
  induction d as [ | d IH | d IH | d IH | d IH | d IH | d IH | d IH | d IH | d IH | d IH ];
    simpl.
  1: now apply readDigits_headNotDigit.
  all: cbn [isDigit uint_of_char]; rewrite IH; reflexivity.
Qed.

Lemma uint_beq_refl (d : uint) : uint_beq d d = true.
Proof. induction d; simpl; auto. Qed.

Lemma unorm_to_uint (p : positive) : unorm (Pos.to_uint p) = Pos.to_uint p.
Proof.
  rewrite <- (DecimalPos.Unsigned.to_of (Pos.to_uint p)).
  rewrite DecimalPos.Unsigned.of_to. reflexivity.
Qed.

Lemma unorm_abs_to_int (n : Z) :
  unorm (match Z.to_int n with Pos d => d | Neg d => d end)
  = match Z.to_int n with Pos d => d | Neg d => d end.
Proof. destruct n; simpl; [ reflexivity | apply unorm_to_uint .. ]. Qed.

Lemma string_of_uint_head (d : uint) :
  d <> Nil ->
  exists c s, NilEmpty.string_of_uint d = String c s /\ isDigit c = true.
Proof.
  destruct d; intros H; try congruence; simpl; eexists _, _; split; reflexivity.
Qed.

Lemma parseNumber_toString (n : Z) (rest : string) :
  headNotDigit rest ->
  parseNumber (Number_toString n ++ rest) = Some (JNum n, rest).
Proof.
  intros Hrest. unfold Number_toString.
  pose proof (DecimalZ.of_to n) as Hn.
  pose proof (unorm_abs_to_int n) as Hnorm.
  destruct n as [ | p | p ]; simpl in Hnorm |- *.
  - unfold parseNumber. cbn. rewrite readDigits_headNotDigit by assumption.
    reflexivity.
  - destruct (string_of_uint_head (Pos.to_uint p)) as (c & s & Hs & Hc).
    { apply DecimalPos.Unsigned.to_uint_nonnil. }
    unfold parseNumber.
    assert (Hminus : Ascii.eqb c "-" = false).
    { destruct (Ascii.eqb_spec c "-") as [ -> | ]; [ discriminate Hc | reflexivity ]. }
    assert (Hrd : readDigits (NilEmpty.string_of_uint (Pos.to_uint p) ++ rest)
                  = (Pos.to_uint p, rest))
      by now apply readDigits_string_of_uint.
    rewrite Hs in Hrd |- *. simpl append in Hrd |- *. cbv beta iota. rewrite Hminus, Hrd, Hnorm, uint_beq_refl.
    change (Z.of_int (Pos (Pos.to_uint p)) = Z.pos p) in Hn. now rewrite Hn.
  - unfold parseNumber. cbn [NilEmpty.string_of_int append Ascii.eqb Bool.eqb].
    rewrite readDigits_string_of_uint by assumption.
    rewrite Hnorm, uint_beq_refl.
    change (Z.of_int (Neg (Pos.to_uint p)) = Z.neg p) in Hn. now rewrite Hn.
Qed.

Lemma skipWhitespace_app (w s : string) :
  allWhitespace w = true -> skipWhitespace (w ++ s) = skipWhitespace s.
Proof.
  induction w as [ | c w IH ]; simpl; [ reflexivity | ].
  intros H. apply andb_prop in H as [Hc Hw]. rewrite Hc. auto.
Qed.

Lemma allWhitespace_app (a b : string) :
  allWhitespace a = true -> allWhitespace b = true -> allWhitespace (a ++ b) = true.
Proof.
  induction a as [ | c a IH ]; simpl; [ auto | ].
  intros H Hb. apply andb_prop in H as [Hc Ha]. rewrite Hc. simpl. auto.
Qed.


Lemma valueStart_facts (c : ascii) :
  valueStart c = true ->
  isWhitespace c = false /\ Ascii.eqb c "]" = false /\ Ascii.eqb c "}" = false.
Proof.
  destruct c as [[|] [|] [|] [|] [|] [|] [|] [|]]; cbv; intros H;
    first [ discriminate H | repeat split ].
Qed.

Lemma isWhitespace_not_digit (c : ascii) : isWhitespace c = true -> isDigit c = false.
Proof.
  destruct c as [[|] [|] [|] [|] [|] [|] [|] [|]]; cbv; intros H;
    first [ discriminate H | reflexivity ].
Qed.

Lemma skipWhitespace_valueStart (c : ascii) (s : string) :
  valueStart c = true -> skipWhitespace (String c s) = String c s.
Proof.
  intros H. apply valueStart_facts in H as (Hws & _). simpl. now rewrite Hws.
Qed.

Lemma headNotDigit_app (w : string) (c : ascii) (s : string) :
  allWhitespace w = true -> isDigit c = false -> headNotDigit (w ++ String c s).
Proof.
  destruct w as [ | x w ]; simpl; [ auto | ].
  intros H _. apply andb_prop in H as [Hx _]. now apply isWhitespace_not_digit.
Qed.

Lemma wrapPartial_head gap stepback indent open close partial :
  exists s, wrapPartial gap stepback indent open close partial = String open s.
Proof.
  unfold wrapPartial. destruct partial; [ | destruct (isEmpty gap) ]; eexists; reflexivity.
Qed.

Lemma serialize_head (gap indent : string) (v : Json) :
  exists c s, serialize gap indent v = String c s /\ valueStart c = true.
Proof.
  destruct v as [ | [ | ] | n | s | items | members ]; simpl.
  1-3: eexists _, _; split; reflexivity.
  - unfold Number_toString. destruct n as [ | p | p ]; simpl.
    + eexists _, _; split; reflexivity.
    + destruct (string_of_uint_head (Pos.to_uint p)) as (c & s & Hs & Hc).
      { apply DecimalPos.Unsigned.to_uint_nonnil. }
      exists c, s. split; [ assumption | ].
      unfold valueStart. rewrite Hc. now rewrite !orb_true_r.
    + eexists _, _; split; reflexivity.
  - eexists _, _; split; reflexivity.
  - destruct (wrapPartial_head gap indent (indent ++ gap) "[" "]"
                (map (serialize gap (indent ++ gap)) items)) as [s ->].
    eexists _, _; split; reflexivity.
  - match goal with |- context [wrapPartial ?a ?b ?c ?d ?e ?f] =>
      destruct (wrapPartial_head a b c d e f) as [s ->] end.
    eexists _, _; split; reflexivity.
Qed.

Lemma parseValue_S (fuel : nat) (s : string) :
  parseValue (S fuel) s =
  match skipWhitespace s with
  | "" => None
  | String c rest as s' =>
      if Ascii.eqb c "n" then expect "null" JNull s'
      else if Ascii.eqb c "t" then expect "true" (JBool true) s'
      else if Ascii.eqb c "f" then expect "false" (JBool false) s'
      else if Ascii.eqb c DQUOTE then
        match parseChars rest with
        | Some (str, rest') => Some (JStr str, rest')
        | None => None
        end
      else if Ascii.eqb c "[" then
        match skipWhitespace rest with
        | String c' rest' =>
            if Ascii.eqb c' "]" then Some (JArr [], rest')
            else match parseElements fuel rest with
                 | Some (items, rest'') => Some (JArr items, rest'')
                 | None => None
                 end
        | "" => None
        end
      else if Ascii.eqb c "{" then
        match skipWhitespace rest with
        | String c' rest' =>
            if Ascii.eqb c' "}" then Some (JObj [], rest')
            else match parseMembers fuel rest with
                 | Some (members, rest'') => Some (JObj members, rest'')
                 | None => None
                 end
        | "" => None
        end
      else if Ascii.eqb c "-" || isDigit c then parseNumber s'
      else None
  end.
Proof. reflexivity. Qed.

Lemma parseElements_S (fuel : nat) (s : string) :
  parseElements (S fuel) s =
  match parseValue fuel s with
  | None => None
  | Some (v, rest) =>
      match skipWhitespace rest with
      | "" => None
      | String c rest' =>
          if Ascii.eqb c "]" then Some ([v], rest')
          else if Ascii.eqb c "," then
            match parseElements fuel rest' with
            | Some (vs, rest'') => Some (v :: vs, rest'')
            | None => None
            end
          else None
      end
  end.
Proof. reflexivity. Qed.

Lemma parseMembers_S (fuel : nat) (s : string) :
  parseMembers (S fuel) s =
  match skipWhitespace s with
  | "" => None
  | String q rest =>
      if Ascii.eqb q DQUOTE then
        match parseChars rest with
        | None => None
        | Some (key, rest1) =>
            match skipWhitespace rest1 with
            | "" => None
            | String colon rest2 =>
                if Ascii.eqb colon ":" then
                  match parseValue fuel rest2 with
                  | None => None
                  | Some (v, rest3) =>
                      match skipWhitespace rest3 with
                      | "" => None
                      | String c rest4 =>
                          if Ascii.eqb c "}" then Some ([(key, v)], rest4)
                          else if Ascii.eqb c "," then
                            match parseMembers fuel rest4 with
                            | Some (kvs, rest5) => Some ((key, v) :: kvs, rest5)
                            | None => None
                            end
                          else None
                      end
                  end
                else None
            end
        end
      else None
  end.
Proof. reflexivity. Qed.

Lemma append_String (c : ascii) (a b : string) : String c a ++ b = String c (a ++ b).
Proof. reflexivity. Qed.

Lemma skipWhitespace_nonws (c : ascii) (s : string) :
  isWhitespace c = false -> skipWhitespace (String c s) = String c s.
Proof. intros H. simpl. now rewrite H. Qed.

Lemma parseValue_skip (fuel : nat) (w s : string) :
  allWhitespace w = true -> parseValue fuel (w ++ s) = parseValue fuel s.
Proof.
  intros Hw. destruct fuel as [ | fuel ]; [ reflexivity | ].
  rewrite !parseValue_S. now rewrite skipWhitespace_app.
Qed.

Lemma parseValue_string (fuel : nat) (s : string) :
  parseValue (S fuel) (String DQUOTE s) =
  match parseChars s with
  | Some (str, rest') => Some (JStr str, rest')
  | None => None
  end.
Proof. reflexivity. Qed.

Lemma parseValue_array (fuel : nat) (body : string) (c : ascii) (s : string) :
  skipWhitespace body = String c s ->
  Ascii.eqb c "]" = false ->
  parseValue (S fuel) (String "[" body) =
  match parseElements fuel body with
  | Some (items, rest) => Some (JArr items, rest)
  | None => None
  end.
Proof.
  intros Hbody Hc.
  change (parseValue (S fuel) (String "[" body))
    with (match skipWhitespace body with
          | String c' rest' =>
              if Ascii.eqb c' "]" then Some (JArr [], rest')
              else match parseElements fuel body with
                   | Some (items, rest'') => Some (JArr items, rest'')
                   | None => None
                   end
          | "" => None
          end).
  now rewrite Hbody, Hc.
Qed.

Lemma parseValue_object (fuel : nat) (body : string) (c : ascii) (s : string) :
  skipWhitespace body = String c s ->
  Ascii.eqb c "}" = false ->
  parseValue (S fuel) (String "{" body) =
  match parseMembers fuel body with
  | Some (members, rest) => Some (JObj members, rest)
  | None => None
  end.
Proof.
  intros Hbody Hc.
  change (parseValue (S fuel) (String "{" body))
    with (match skipWhitespace body with
          | String c' rest' =>
              if Ascii.eqb c' "}" then Some (JObj [], rest')
              else match parseMembers fuel body with
                   | Some (members, rest'') => Some (JObj members, rest'')
                   | None => None
                   end
          | "" => None
          end).
  now rewrite Hbody, Hc.
Qed.

Lemma parseValue_number (fuel : nat) (c : ascii) (s : string) :
  Ascii.eqb c "-" = true \/ isDigit c = true ->
  parseValue (S fuel) (String c s) = parseNumber (String c s).
Proof.
  destruct c as [[|] [|] [|] [|] [|] [|] [|] [|]]; intros [H | H];
    first [ discriminate H | reflexivity ].
Qed.

Lemma Number_toString_head (n : Z) :
  exists c s, Number_toString n = String c s
              /\ (Ascii.eqb c "-" = true \/ isDigit c = true).
Proof.
  unfold Number_toString. destruct n as [ | p | p ]; simpl.
  - eexists _, _; split; [ reflexivity | now right ].
  - destruct (string_of_uint_head (Pos.to_uint p)) as (c & s & Hs & Hc).
    { apply DecimalPos.Unsigned.to_uint_nonnil. }
    exists c, s. auto.
  - eexists _, _; split; [ reflexivity | now left ].
Qed.

Lemma QuoteJSONString_app (k tail : string) :
  QuoteJSONString k ++ tail = String DQUOTE (quoteChars k ++ String DQUOTE tail).
Proof. unfold QuoteJSONString. simpl. now rewrite append_assoc. Qed.

Lemma concat_cons_cons (sep x y : string) (l : list string) :
  String.concat sep (x :: y :: l) = x ++ sep ++ String.concat sep (y :: l).
Proof. reflexivity. Qed.

Lemma concat_head (sep x : string) (l : list string) :
  exists tail, String.concat sep (x :: l) = x ++ tail.
Proof.
  destruct l as [ | y l ].
  - exists "". simpl. now rewrite append_nil_r.
  - eexists. apply concat_cons_cons.
Qed.

Section RoundTrip.

Variable gap : string.
Hypothesis gap_whitespace : allWhitespace gap = true.

Lemma parseElements_concat (indent w1 w2 rest : string) (items : list Json) :
  Forall (reads gap) items ->
  items <> [] ->
  allWhitespace indent = true ->
  allWhitespace w1 = true ->
  allWhitespace w2 = true ->
  forall fuel,
    list_sum (map (fun v => S (cost v)) items) <= fuel ->
    parseElements fuel
      (w1 ++ String.concat (String "," w1) (map (serialize gap indent) items)
          ++ w2 ++ String "]" rest)
    = Some (items, rest).
Proof.
  intros Hall Hne Hind Hw1 Hw2.
  induction Hall as [ | v items Hv Hitems IH ]; [ congruence | ].
  intros fuel Hfuel. simpl in Hfuel.
  destruct fuel as [ | fuel ]; [ lia | ].
  rewrite parseElements_S.
  destruct items as [ | v' items ].
  - simpl String.concat.
    rewrite (Hv indent w1 (w2 ++ String "]" rest) fuel Hind Hw1); try lia.
    2: now apply headNotDigit_app.
    rewrite skipWhitespace_app by assumption. reflexivity.
  - rewrite 2 map_cons, concat_cons_cons, <- (map_cons (serialize gap indent) v' items).
    rewrite !append_assoc.
    rewrite (Hv indent w1 _ fuel Hind Hw1); try lia.
    2: reflexivity.
    rewrite append_String, skipWhitespace_nonws by reflexivity.
    cbv beta iota.
    change (Ascii.eqb "," "]") with false. change (Ascii.eqb "," ",") with true.
    cbv iota.
    rewrite IH; [ reflexivity | congruence | ].
    simpl in Hfuel |- *. lia.
Qed.

Lemma member_app (indent tail : string) (k : string) (v : Json) :
  member gap indent (k, v) ++ tail
  = String DQUOTE (quoteChars k ++ String DQUOTE
      (String ":" ((if isEmpty gap then "" else " ")
                   ++ serialize gap indent v ++ tail))).
Proof.
  unfold member. simpl fst. simpl snd.
  rewrite !append_assoc, QuoteJSONString_app. reflexivity.
Qed.

Lemma parseMembers_concat (indent w1 w2 rest : string)
    (members : list (string * Json)) :
  Forall (fun kv => reads gap (snd kv)) members ->
  members <> [] ->
  allWhitespace indent = true ->
  allWhitespace w1 = true ->
  allWhitespace w2 = true ->
  forall fuel,
    list_sum (map (fun kv => S (cost (snd kv))) members) <= fuel ->
    parseMembers fuel
      (w1 ++ String.concat (String "," w1) (map (member gap indent) members)
          ++ w2 ++ String "}" rest)
    = Some (members, rest).
Proof.
  intros Hall Hne Hind Hw1 Hw2.
  assert (Hsp : allWhitespace (if isEmpty gap then "" else " ") = true)
    by (destruct (isEmpty gap); reflexivity).
  induction Hall as [ | [k v] members Hv Hmembers IH ]; [ congruence | ].
  intros fuel Hfuel. simpl in Hfuel. simpl snd in Hv.
  destruct fuel as [ | fuel ]; [ lia | ].
  rewrite parseMembers_S, skipWhitespace_app by assumption.
  destruct members as [ | kv' members ].
  - simpl String.concat. rewrite member_app.
    rewrite skipWhitespace_nonws by reflexivity.
    change (Ascii.eqb DQUOTE DQUOTE) with true. cbv beta iota.
    rewrite parseChars_quoteChars.
    rewrite skipWhitespace_nonws by reflexivity.
    change (Ascii.eqb ":" ":") with true. cbv beta iota.
    rewrite (Hv indent _ (w2 ++ String "}" rest) fuel Hind Hsp); try lia.
    2: now apply headNotDigit_app.
    rewrite skipWhitespace_app by assumption. reflexivity.
  - rewrite 2 map_cons, concat_cons_cons, <- (map_cons (member gap indent) kv' members).
    rewrite !append_assoc, member_app.
    rewrite skipWhitespace_nonws by reflexivity.
    change (Ascii.eqb DQUOTE DQUOTE) with true. cbv beta iota.
    rewrite parseChars_quoteChars.
    rewrite skipWhitespace_nonws by reflexivity.
    change (Ascii.eqb ":" ":") with true. cbv beta iota.
    rewrite (Hv indent _ _ fuel Hind Hsp); try lia.
    2: reflexivity.
    rewrite append_String, skipWhitespace_nonws by reflexivity.
    cbv beta iota.
    change (Ascii.eqb "," "}") with false. change (Ascii.eqb "," ",") with true.
    cbv iota.
    rewrite IH; [ reflexivity | congruence | ].
    simpl in Hfuel |- *. lia.
Qed.

Lemma skipWhitespace_concat_head (sep w tail : string) (x : string) (l : list string)
    (c : ascii) (s : string) :
  allWhitespace w = true ->
  x = String c s ->
  valueStart c = true ->
  exists s', skipWhitespace (w ++ String.concat sep (x :: l) ++ tail) = String c s'.
Proof.
  intros Hw -> Hc. destruct (concat_head sep (String c s) l) as [t ->].
  rewrite skipWhitespace_app by assumption.
  rewrite !append_String. rewrite skipWhitespace_valueStart by assumption.
  eexists; reflexivity.
Qed.

Lemma wrapPartial_compact (stepback indent : string) (open close : ascii)
    (x : string) (l : list string) (rest : string) :
  isEmpty gap = true ->
  wrapPartial gap stepback indent open close (x :: l) ++ rest
  = String open ("" ++ String.concat (String "," "") (x :: l)
                    ++ "" ++ String close rest).
Proof.
  intros H. unfold wrapPartial. rewrite H.
  rewrite append_String, append_assoc. reflexivity.
Qed.

Lemma wrapPartial_pretty (stepback indent : string) (open close : ascii)
    (x : string) (l : list string) (rest : string) :
  isEmpty gap = false ->
  wrapPartial gap stepback indent open close (x :: l) ++ rest
  = String open (String LF indent
                 ++ String.concat (String "," (String LF indent)) (x :: l)
                 ++ String LF stepback ++ String close rest).
Proof.
  intros H. unfold wrapPartial. rewrite H.
  repeat (rewrite ?append_String, ?append_assoc). reflexivity.
Qed.

Lemma serialize_JObj (indent : string) (members : list (string * Json)) :
  serialize gap indent (JObj members)
  = wrapPartial gap indent (indent ++ gap) "{" "}"
      (map (member gap (indent ++ gap)) members).
Proof. reflexivity. Qed.

Theorem serialize_reads (v : Json) : reads gap v.
Proof.
  induction v as [ | b | n | s | items IH | members IH ] using Json_ind;
    intros indent w rest fuel Hind Hw Hrest Hfuel;
    (destruct fuel as [ | fuel ]; [ simpl in Hfuel; lia | ]);
    rewrite parseValue_skip by assumption.
  - reflexivity.
  - destruct b; reflexivity.
  - simpl serialize.
    destruct (Number_toString_head n) as (c & s & Hs & Hc).
    rewrite Hs, append_String, parseValue_number by assumption.
    rewrite <- append_String, <- Hs. now apply parseNumber_toString.
  - simpl serialize. rewrite QuoteJSONString_app, parseValue_string.
    now rewrite parseChars_quoteChars.
  - simpl serialize. simpl in Hfuel.
    assert (Hind' : allWhitespace (indent ++ gap) = true)
      by now apply allWhitespace_app.
    destruct items as [ | v items ]; [ reflexivity | ].
    destruct (serialize_head gap (indent ++ gap) v) as (c & s & Hs & Hc).
    pose proof (valueStart_facts c Hc) as (_ & Hclose & _).
    rewrite map_cons.
    destruct (isEmpty gap) eqn:Hgap.
    + rewrite wrapPartial_compact by assumption.
      destruct (skipWhitespace_concat_head (String "," "") ""
                  ("" ++ String "]" rest)
                  _ (map (serialize gap (indent ++ gap)) items) c s eq_refl Hs Hc)
        as [s' Hskip].
      rewrite (parseValue_array _ _ c s' Hskip Hclose).
      rewrite <- map_cons.
      rewrite (parseElements_concat (indent ++ gap) "" "" rest (v :: items));
        auto; try congruence. lia.
    + rewrite wrapPartial_pretty by assumption.
      assert (Hw1 : allWhitespace (String LF (indent ++ gap)) = true)
        by (simpl; now rewrite Hind').
      assert (Hw2 : allWhitespace (String LF indent) = true)
        by (simpl; now rewrite Hind).
      destruct (skipWhitespace_concat_head (String "," (String LF (indent ++ gap)))
                  (String LF (indent ++ gap))
                  (String LF indent ++ String "]" rest)
                  _ (map (serialize gap (indent ++ gap)) items) c s Hw1 Hs Hc)
        as [s' Hskip].
      rewrite (parseValue_array _ _ c s' Hskip Hclose).
      rewrite <- map_cons.
      rewrite (parseElements_concat (indent ++ gap) _ _ rest (v :: items));
        auto; try congruence. lia.
  - simpl in Hfuel.
    assert (Hind' : allWhitespace (indent ++ gap) = true)
      by now apply allWhitespace_app.
    destruct members as [ | [k v] members ]; [ reflexivity | ].
    rewrite serialize_JObj, map_cons.
    assert (Hhead : exists s, member gap (indent ++ gap) (k, v) = String DQUOTE s).
    { unfold member, QuoteJSONString. simpl. eexists; reflexivity. }
    destruct Hhead as [s Hs].
    assert (Hc : valueStart DQUOTE = true) by reflexivity.
    assert (Hclose : Ascii.eqb DQUOTE "}" = false) by reflexivity.
    destruct (isEmpty gap) eqn:Hgap.
    + rewrite wrapPartial_compact by assumption.
      destruct (skipWhitespace_concat_head (String "," "") ""
                  ("" ++ String "}" rest)
                  _ (map (member gap (indent ++ gap)) members) DQUOTE s eq_refl Hs Hc)
        as [s' Hskip].
      rewrite (parseValue_object _ _ DQUOTE s' Hskip Hclose).
      rewrite <- map_cons.
      rewrite (parseMembers_concat (indent ++ gap) "" "" rest ((k, v) :: members));
        auto; try congruence. lia.
    + rewrite wrapPartial_pretty by assumption.
      assert (Hw1 : allWhitespace (String LF (indent ++ gap)) = true)
        by (simpl; now rewrite Hind').
      assert (Hw2 : allWhitespace (String LF indent) = true)
        by (simpl; now rewrite Hind).
      destruct (skipWhitespace_concat_head (String "," (String LF (indent ++ gap)))
                  (String LF (indent ++ gap))
                  (String LF indent ++ String "}" rest)
                  _ (map (member gap (indent ++ gap)) members) DQUOTE s Hw1 Hs Hc)
        as [s' Hskip].
      rewrite (parseValue_object _ _ DQUOTE s' Hskip Hclose).
      rewrite <- map_cons.
      rewrite (parseMembers_concat (indent ++ gap) _ _ rest ((k, v) :: members));
        auto; try congruence. lia.
Qed.

End RoundTrip.

(** Fuel: the length of a text is enough to read it back. *)

Lemma list_sum_le_concat {A : Type} (c : A -> nat) (f : A -> string)
    (sep : string) (l : list A) :
  Forall (fun a => c a <= String.length (f a)) l ->
  1 <= String.length sep ->
  list_sum (map (fun a => S (c a)) l) <= S (String.length (String.concat sep (map f l))).
Proof.
  intros Hall Hsep. induction Hall as [ | a l Ha Hl IH ].
  - simpl. lia.
  - destruct l as [ | b l ].
    + simpl. lia.
    + rewrite (map_cons f a (b :: l)), (map_cons f b l), concat_cons_cons.
      rewrite <- (map_cons f b l), !length_append.
      change (list_sum (map (fun a => S (c a)) (a :: b :: l)))
        with (S (c a) + list_sum (map (fun a => S (c a)) (b :: l))).
      lia.
Qed.

Lemma length_wrapPartial (gap stepback indent : string) (open close : ascii)
    (partial : list string) :
  String.length (String.concat (String "," (if isEmpty gap then "" else String LF indent))
                   partial) + 2
  <= String.length (wrapPartial gap stepback indent open close partial).
Proof.
  unfold wrapPartial. destruct partial as [ | x l ]; [ simpl; lia | ].
  destruct (isEmpty gap); simpl String.length; rewrite ?length_append; simpl; lia.
Qed.

Lemma cost_le_length (gap : string) (v : Json) :
  forall indent, cost v <= String.length (serialize gap indent v).
Proof.
  induction v as [ | b | n | s | items IH | members IH ] using Json_ind; intros indent.
  - simpl. lia.
  - destruct b; simpl; lia.
  - simpl. destruct (Number_toString_head n) as (c & s & -> & _). simpl. lia.
  - simpl. lia.
  - simpl serialize. simpl cost.
    etransitivity; [ | apply length_wrapPartial ].
    assert (H : list_sum (map (fun v => S (cost v)) items)
                <= S (String.length
                        (String.concat
                           (String "," (if isEmpty gap then "" else String LF (indent ++ gap)))
                           (map (serialize gap (indent ++ gap)) items)))).
    { apply list_sum_le_concat; [ | simpl; lia ].
      eapply Forall_impl; [ | exact IH ]. intros v Hv. apply Hv. }
    lia.
  - rewrite serialize_JObj. simpl cost.
    etransitivity; [ | apply length_wrapPartial ].
    assert (H : list_sum (map (fun kv => S (cost (snd kv))) members)
                <= S (String.length
                        (String.concat
                           (String "," (if isEmpty gap then "" else String LF (indent ++ gap)))
                           (map (member gap (indent ++ gap)) members)))).
    { apply list_sum_le_concat; [ | simpl; lia ].
      eapply Forall_impl; [ | exact IH ]. intros [k v] Hv. simpl in Hv.
      unfold member. simpl fst. simpl snd. rewrite !length_append.
      specialize (Hv (indent ++ gap)). lia. }
    lia.
Qed.

Theorem JSON_parse_serialize (gap : string) (v : Json) :
  allWhitespace gap = true ->
  JSON_parse (serialize gap "" v) = Some v.
Proof.
  intros Hgap. unfold JSON_parse.
  pose proof (serialize_reads gap Hgap v "" "" "" (String.length (serialize gap "" v))
                eq_refl eq_refl I (cost_le_length gap v "")) as H.
  simpl append in H. rewrite append_nil_r in H. rewrite H. reflexivity.
Qed.

Corollary JSON_parse_stringify (v : Json) : JSON_parse (JSON_stringify v) = Some v.
Proof. now apply JSON_parse_serialize. Qed.


(** ** The executor, branch by branch *)

Ltac run_executor :=
  unfold executePharosGraphQLQuery, tryCatch, bind, fetch, console_error, await, ret;
  cbv beta iota.

Ltac finish_run :=
  cbv beta iota; unfold executorLog, statusLog;
  rewrite <- ?app_assoc; reflexivity.

(** [fetch] rejects: the outer [catch] answers. *)
Lemma execute_fetch_throws net q vars tr e :
  net PHAROS_GRAPHQL_ENDPOINT (requestInit q vars) = Throws e ->
  executePharosGraphQLQuery net q vars tr
  = (Returns (TransportFailure (errorMessageOf e)),
     (tr ++ executorLog q vars
         ++ [ConsoleError ("Client-side error during Pharos GraphQL request: "
                           ++ errorMessageOf e)])%list).
Proof.
  intros H. run_executor. rewrite H. finish_run.
Qed.

(** The body is JSON and the status is an ok status. *)
Lemma execute_success net q vars tr r b :
  net PHAROS_GRAPHQL_ENDPOINT (requestInit q vars) = Returns r ->
  Response.json r = Returns b ->
  Response.ok r = true ->
  executePharosGraphQLQuery net q vars tr
  = (Returns b, (tr ++ executorLog q vars ++ [statusLog r])%list).
Proof.
  intros H Hj Hok. run_executor. rewrite H. cbv beta iota. rewrite Hj. cbv beta iota.
  rewrite Hok. change (negb true) with false. finish_run.
Qed.

(** The body is JSON and the status is not an ok status. *)
Lemma execute_http_error net q vars tr r b :
  net PHAROS_GRAPHQL_ENDPOINT (requestInit q vars) = Returns r ->
  Response.json r = Returns b ->
  Response.ok r = false ->
  executePharosGraphQLQuery net q vars tr
  = (Returns (GraphQLHttpError (Response.status r) b),
     (tr ++ executorLog q vars
         ++ [statusLog r;
             ConsoleError ("Pharos API HTTP Error " ++ Number_toString (Response.status r)
                           ++ ": " ++ JSON_stringify b)])%list).
Proof.
  intros H Hj Hok. run_executor. rewrite H. cbv beta iota. rewrite Hj. cbv beta iota.
  rewrite Hok. change (negb false) with true. finish_run.
Qed.

(** [json()] rejects and [text()] delivers the text. *)
Lemma execute_non_json net q vars tr r e t :
  net PHAROS_GRAPHQL_ENDPOINT (requestInit q vars) = Returns r ->
  Response.json r = Throws e ->
  Response.text r = Returns t ->
  executePharosGraphQLQuery net q vars tr
  = (Returns (NonJsonResponse (Response.status r) t),
     (tr ++ executorLog q vars
         ++ [statusLog r;
             ConsoleError ("Pharos API response is not JSON. Status: "
                           ++ Number_toString (Response.status r)
                           ++ ", Body: " ++ slice t 0 500)])%list).
Proof.
  intros H Hj Ht. run_executor. rewrite H. cbv beta iota. rewrite Hj. cbv beta iota.
  rewrite Ht. finish_run.
Qed.

(** [json()] rejects and [text()] rejects too: the inner [catch] does not
    guard it, the outer one answers. *)
Lemma execute_text_throws net q vars tr r e e' :
  net PHAROS_GRAPHQL_ENDPOINT (requestInit q vars) = Returns r ->
  Response.json r = Throws e ->
  Response.text r = Throws e' ->
  executePharosGraphQLQuery net q vars tr
  = (Returns (TransportFailure (errorMessageOf e')),
     (tr ++ executorLog q vars
         ++ [statusLog r;
             ConsoleError ("Client-side error during Pharos GraphQL request: "
                           ++ errorMessageOf e')])%list).
Proof.
  intros H Hj Ht. run_executor. rewrite H. cbv beta iota. rewrite Hj. cbv beta iota.
  rewrite Ht. finish_run.
Qed.

(** The executor always returns a value, and what it adds to the trace
    holds one request, the one of [executorLog]. *)
Lemma execute_returns net q vars tr :
  exists result tail,
    executePharosGraphQLQuery net q vars tr
    = (Returns result, (tr ++ executorLog q vars ++ tail)%list)
    /\ requestsSent tail = [].
Proof.
  destruct (net PHAROS_GRAPHQL_ENDPOINT (requestInit q vars)) as [ r | e ] eqn:H.
  - destruct (Response.json r) as [ b | e ] eqn:Hj.
    + destruct (Response.ok r) eqn:Hok.
      * eexists _, _.
        split; [ apply (execute_success net q vars tr r b); assumption | reflexivity ].
      * eexists _, _.
        split; [ apply (execute_http_error net q vars tr r b); assumption | reflexivity ].
    + destruct (Response.text r) as [ t | e' ] eqn:Ht.
      * eexists _, _.
        split; [ apply (execute_non_json net q vars tr r e t); assumption | reflexivity ].
      * eexists _, _.
        split; [ apply (execute_text_throws net q vars tr r e e'); assumption | reflexivity ].
  - eexists _, _.
    split; [ apply (execute_fetch_throws net q vars tr e); assumption | reflexivity ].
Qed.

(** The handler logs, runs the executor and wraps what it returned. *)
Lemma handler_runs_executor net inv tr :
  pharos_graphql_query net inv tr
  = match executePharosGraphQLQuery net (query inv) (variables inv)
            (tr ++ handlerLog inv)%list with
    | (Returns result, tr') => (Returns (textResult result), tr')
    | (Throws e, tr') => (Throws e, tr')
    end.
Proof.
  unfold pharos_graphql_query, handlerLog, bind, console_error, ret.
  destruct (variables inv) as [ vs | ]; cbv beta iota; rewrite <- ?app_assoc; reflexivity.
Qed.

Lemma requestsSent_app (a b : list Event) :
  requestsSent (a ++ b) = (requestsSent a ++ requestsSent b)%list.
Proof.
  induction a as [ | [ line | url init | mount p ] a IH ]; simpl; now rewrite ?IH.
Qed.

Lemma requestsSent_handlerLog (inv : Invocation) : requestsSent (handlerLog inv) = [].
Proof. unfold handlerLog. destruct (variables inv); reflexivity. Qed.

Lemma transportCalls_app (a b : list Event) :
  transportCalls (a ++ b) = (transportCalls a ++ transportCalls b)%list.
Proof.
  induction a as [ | [ line | url init | mount p ] a IH ]; simpl; now rewrite ?IH.
Qed.

Lemma length_substring (n m : nat) (s : string) :
  String.length (substring n m s) <= m.
Proof.
  revert n m. induction s as [ | c s IH ]; intros [ | n ] [ | m ]; simpl; try lia.
  - specialize (IH 0 m). lia.
  - apply (IH n 0).
  - apply (IH n (S m)).
Qed.

(** [s.slice(0, n)] has at most [n] characters. *)
Lemma length_slice_from_start (s : string) (n : Z) :
  (0 <= n)%Z -> (Z.of_nat (String.length (slice s 0 n)) <= n)%Z.
Proof.
  intros Hn. unfold slice, relativeIndex.
  change (0 <? 0)%Z with false. cbv iota.
  destruct (n <? 0)%Z eqn:Hneg; [ apply Z.ltb_lt in Hneg; lia | ].
  pose proof (length_substring
                (Z.to_nat (Z.min 0 (Z.of_nat (String.length s))))
                (Z.to_nat (Z.max (Z.min n (Z.of_nat (String.length s))
                                  - Z.min 0 (Z.of_nat (String.length s))) 0)) s).
  lia.
Qed.

Lemma not_ok_of_error_status (r : Response.t) :
  (400 <= Response.status r)%Z -> Response.ok r = false.
Proof.
  intros H. unfold Response.ok. apply andb_false_iff. right. apply Z.leb_gt. lia.
Qed.


Lemma forallb_any (members : list (string * Json)) :
  forallb (fun kv => zodAccepts ZodAny (Some (snd kv))) members = true.
Proof. induction members; simpl; auto. Qed.

Lemma fetch_sse_path transport request tr :
  Worker.isSsePath (Worker.pathname request) = true ->
  Worker.fetch transport request tr
  = (transport "/sse" request,
     (tr ++ [ServeSSE "/sse" (Worker.pathname request)])%list).
Proof. intros H. unfold Worker.fetch. rewrite H. reflexivity. Qed.

Lemma fetch_other_path transport request tr :
  Worker.isSsePath (Worker.pathname request) = false ->
  Worker.fetch transport request tr
  = (Returns Worker.notFound, (tr ++ [notFoundLog request])%list).
Proof. intros H. unfold Worker.fetch. rewrite H. reflexivity. Qed.

(** ** Response classification *)

(** C1, as stated, fails: a response with status 500 whose body is not JSON
    is not classified as GraphQLHttpError. With the body consumed by
    [json()] the result is the client-side error and carries no status
    code; with a [text()] that still delivers the body it is the non-JSON
    error. *)
Lemma error_status_without_json_body :
  (fst (executePharosGraphQLQuery (respondWith (networkResponse 500 (Some htmlBody)))
          "{ x }" None [])
   = Returns (TransportFailure "Body has already been used.")
   /\ ~ isGraphQLHttpError (TransportFailure "Body has already been used.")
   /\ errorExtension "statusCode" (TransportFailure "Body has already been used.") = None)
  /\
  (fst (executePharosGraphQLQuery (respondWith readableHtml) "{ x }" None [])
   = Returns (NonJsonResponse 500 htmlBody)
   /\ ~ isGraphQLHttpError (NonJsonResponse 500 htmlBody)).
Proof.
  split; [ split; [ | split ] | split ].
  - reflexivity.
  - intros (status & b & H). discriminate H.
  - reflexivity.
  - reflexivity.
  - intros (status & b & H). discriminate H.
Qed.

(** C1, amended: for every response with status >= 400 whose body parses as
    JSON, the executor returns a GraphQLHttpError whose [errors[0]] carries
    the status code in [extensions.statusCode] and the parsed body in
    [extensions.responseBody]. *)
Theorem error_status_with_json_body net q vars tr r b :
  net PHAROS_GRAPHQL_ENDPOINT (requestInit q vars) = Returns r ->
  (400 <= Response.status r)%Z ->
  Response.json r = Returns b ->
  exists result tr',
    executePharosGraphQLQuery net q vars tr = (Returns result, tr')
    /\ isGraphQLHttpError result
    /\ errorExtension "statusCode" result = Some (JNum (Response.status r))
    /\ errorExtension "responseBody" result = Some b.
Proof.
  intros H Hstatus Hj.
  eexists _, _. split; [ | split; [ | split ] ].
  - apply (execute_http_error net q vars tr r b); auto using not_ok_of_error_status.
  - eexists _, _. reflexivity.
  - reflexivity.
  - reflexivity.
Qed.

(** The amended C1 at a response with status 500 and a JSON body. *)
Lemma error_status_with_json_body_witness :
  respondWith (networkResponse 500 (Some (JSON_stringify syntaxErrorBody)))
    PHAROS_GRAPHQL_ENDPOINT (requestInit "{ x }" None)
  = Returns (networkResponse 500 (Some (JSON_stringify syntaxErrorBody)))
  /\ (400 <= 500)%Z
  /\ exists result tr',
       executePharosGraphQLQuery
         (respondWith (networkResponse 500 (Some (JSON_stringify syntaxErrorBody))))
         "{ x }" None [] = (Returns result, tr')
       /\ isGraphQLHttpError result
       /\ errorExtension "statusCode" result = Some (JNum 500)
       /\ errorExtension "responseBody" result = Some syntaxErrorBody.
Proof.
  split; [ reflexivity | split; [ lia | ] ].
  apply (error_status_with_json_body
           (respondWith (networkResponse 500 (Some (JSON_stringify syntaxErrorBody))))
           "{ x }" None []
           (networkResponse 500 (Some (JSON_stringify syntaxErrorBody))) syntaxErrorBody);
    [ reflexivity | simpl; lia | reflexivity ].
Defined.




(** C3, at the input where the code misses it: the upstream answers 502
    with an HTML body. [json()] rejects, the [text()] of the inner [catch]
    finds the body already consumed and rejects as well, and the outer
    [catch] reports a client-side error: the result is not a
    NonJsonResponse and carries neither the status code nor the text. *)
Theorem non_json_body_reported_as_client_error :
  JSON_parse htmlBody = None
  /\ fst (executePharosGraphQLQuery (respondWith (networkResponse 502 (Some htmlBody)))
            "{ x }" None [])
     = Returns (TransportFailure "Body has already been used.")
  /\ ~ isNonJsonResponse (TransportFailure "Body has already been used.")
  /\ errorExtension "statusCode" (TransportFailure "Body has already been used.") = None
  /\ errorExtension "responseText" (TransportFailure "Body has already been used.") = None.
Proof.
  split; [ reflexivity | split; [ reflexivity | split; [ | split; reflexivity ] ] ].
  intros (status & t & H). discriminate H.
Qed.

(** What the inner [catch] does when [text()] delivers the text: a
    NonJsonResponse with the status code and the first 1000 characters. *)
Lemma non_json_when_text_is_read net q vars tr r e t :
  net PHAROS_GRAPHQL_ENDPOINT (requestInit q vars) = Returns r ->
  Response.json r = Throws e ->
  Response.text r = Returns t ->
  exists result tr' captured,
    executePharosGraphQLQuery net q vars tr = (Returns result, tr')
    /\ isNonJsonResponse result
    /\ errorExtension "statusCode" result = Some (JNum (Response.status r))
    /\ errorExtension "responseText" result = Some (JStr captured)
    /\ captured = slice t 0 1000
    /\ String.length captured <= 1000.
Proof.
  intros H Hj Ht.
  eexists _, _, _. split; [ | split; [ | split; [ | split; [ | split ] ] ] ].
  - apply (execute_non_json net q vars tr r e t); assumption.
  - eexists _, _. reflexivity.
  - reflexivity.
  - reflexivity.
  - reflexivity.
  - pose proof (length_slice_from_start t 1000). lia.
Qed.




(** ** The tool handler *)


(** C6, as stated, fails: the schema of [query] is [z.string()], which the
    empty string satisfies; the arguments pass and the handler gets the
    empty query. *)
Lemma empty_query_satisfies_schema :
  zodAccepts ZodString (Some (JStr "")) = true
  /\ parseArguments [("query", JStr "")] = Some {| query := ""; variables := None |}.
Proof. split; reflexivity. Qed.

(** C6, amended: the input contract requires [query] to be a string. Every
    string, the empty one included, satisfies it, reaches the handler as it
    is, and is sent as it is in the [query] field of the one request. *)
Theorem any_string_query_accepted_unchanged (q : string)
    (vars : option (list (string * Json))) :
  zodAccepts ZodString (Some (JStr q)) = true
  /\ parseArguments (toolArguments q vars) = Some {| query := q; variables := vars |}
  /\ forall net tr,
       requestsSent (snd (pharos_graphql_query net {| query := q; variables := vars |} tr))
       = (requestsSent tr ++ [(PHAROS_GRAPHQL_ENDPOINT, requestInit q vars)])%list
       /\ exists members,
            JSON_parse (body (requestInit q vars)) = Some (JObj members)
            /\ lookup "query" members = Some (JStr q).
Proof.
  split; [ reflexivity | split ].
  - unfold parseArguments, toolArguments. destruct vars as [ vs | ].
    + cbn. rewrite forallb_any. reflexivity.
    + reflexivity.
  - intros net tr. split.
    + rewrite handler_runs_executor. cbn [query variables].
      destruct (execute_returns net q vars
                  (tr ++ handlerLog {| query := q; variables := vars |})%list)
        as (result & tail & -> & Htail).
      cbn [snd]. rewrite !requestsSent_app, Htail, requestsSent_handlerLog, !List.app_nil_r.
      reflexivity.
    + exists (toolArguments q vars). split.
      * apply JSON_parse_stringify.
      * reflexivity.
Qed.

(** C7: an invocation sends exactly one request: a POST to the fixed
    endpoint, with the two fixed headers, whose body is the JSON text of an
    object that holds the query string and holds [variables] exactly when
    variables were supplied. The request depends on the invocation only. *)
Theorem one_post_request_per_invocation net inv tr :
  requestsSent (snd (pharos_graphql_query net inv tr))
  = (requestsSent tr
       ++ [(PHAROS_GRAPHQL_ENDPOINT, requestInit (query inv) (variables inv))])%list
  /\ PHAROS_GRAPHQL_ENDPOINT = "https://pharos-api.ncats.io/graphql"
  /\ method (requestInit (query inv) (variables inv)) = "POST"
  /\ headers (requestInit (query inv) (variables inv))
     = [ ("Content-Type", "application/json");
         ("User-Agent",
          "MCPPharosServer/1.0.0 (ModelContextProtocol; +https://modelcontextprotocol.io)") ]
  /\ exists members,
       JSON_parse (body (requestInit (query inv) (variables inv))) = Some (JObj members)
       /\ lookup "query" members = Some (JStr (query inv))
       /\ lookup "variables" members = option_map JObj (variables inv)
       /\ (lookup "variables" members <> None <-> variables inv <> None).
Proof.
  split; [ | split; [ reflexivity | split; [ reflexivity | split; [ reflexivity | ] ] ] ].
  - rewrite handler_runs_executor.
    destruct (execute_returns net (query inv) (variables inv) (tr ++ handlerLog inv)%list)
      as (result & tail & -> & Htail).
    cbn [snd]. rewrite !requestsSent_app, Htail, requestsSent_handlerLog, !List.app_nil_r.
    reflexivity.
  - eexists. split; [ apply JSON_parse_stringify | ].
    destruct (variables inv) as [ vs | ]; simpl;
      (split; [ reflexivity | split; [ reflexivity | ] ]); split; congruence.
Qed.

(** ** The router *)

(** C8, as stated, fails: "/sse/message" is another path than "/sse", and a
    request to it is handed to the transport instead of getting the 404. *)
Lemma second_path_reaches_transport :
  "/sse/message" <> "/sse"
  /\ Worker.fetch sampleTransport {| Worker.pathname := "/sse/message" |} []
     = (Returns eventStream, [ServeSSE "/sse" "/sse/message"])
  /\ Worker.responseStatus eventStream <> 404%Z.
Proof. repeat split; discriminate. Qed.

(** C8, amended: a request to a path that is not "/sse" and does not begin
    with "/sse/" never reaches the transport and receives the fixed
    response: status 404, content type text/plain, a body that names
    "/sse". The path "/sse" and every path that begins with "/sse/" are
    handed to the event-stream transport mounted at "/sse". *)
Theorem paths_outside_sse_get_fixed_404 transport request tr :
  Worker.pathname request <> "/sse" ->
  startsWith (Worker.pathname request) "/sse/" = false ->
  (Worker.fetch transport request tr
   = (Returns Worker.notFound, (tr ++ [notFoundLog request])%list)
   /\ transportCalls (snd (Worker.fetch transport request tr)) = transportCalls tr
   /\ Worker.responseStatus Worker.notFound = 404%Z
   /\ Worker.responseHeaders Worker.notFound = [("Content-Type", "text/plain")]
   /\ exists before after,
        Worker.responseBody Worker.notFound = before ++ "/sse" ++ after)
  /\ forall other,
       Worker.pathname other = "/sse"
       \/ startsWith (Worker.pathname other) "/sse/" = true ->
       Worker.fetch transport other tr
       = (transport "/sse" other, (tr ++ [ServeSSE "/sse" (Worker.pathname other)])%list).
Proof.
  intros Hne Hprefix.
  assert (Hguard : Worker.isSsePath (Worker.pathname request) = false).
  { unfold Worker.isSsePath. rewrite Hprefix.
    apply String.eqb_neq in Hne. now rewrite Hne. }
  split; [ split; [ | split; [ | split; [ | split ] ] ] | ].
  - now apply fetch_other_path.
  - rewrite fetch_other_path by assumption. cbn [snd].
    rewrite transportCalls_app. simpl. now rewrite List.app_nil_r.
  - reflexivity.
  - reflexivity.
  - exists ("Pharos MCP Server - Path not found." ++ String LF
              ("Available MCP paths:" ++ String LF "- ")),
           " (for Server-Sent Events transport)".
    reflexivity.
  - intros other Hother. apply fetch_sse_path. unfold Worker.isSsePath.
    destruct Hother as [ -> | -> ]; [ reflexivity | apply orb_true_r ].
Qed.

(** The amended C8 at the path "/mcp". *)
Lemma paths_outside_sse_get_fixed_404_witness :
  "/mcp" <> "/sse"
  /\ startsWith "/mcp" "/sse/" = false
  /\ Worker.fetch sampleTransport {| Worker.pathname := "/mcp" |} []
     = (Returns Worker.notFound, [notFoundLog {| Worker.pathname := "/mcp" |}]).
Proof.
  split; [ discriminate | split; [ reflexivity | ] ].
  apply (paths_outside_sse_get_fixed_404 sampleTransport {| Worker.pathname := "/mcp" |} []);
    [ discriminate | reflexivity ].
Defined.

(** C10: a request to any path that begins with "/sse/" is handed to the
    event-stream transport mounted at "/sse", not to the 404 fallback; such
    a path differs from "/sse", which reaches the transport as well, so
    more than one pathname does. *)
Theorem sse_prefix_paths_reach_transport transport request tr :
  startsWith (Worker.pathname request) "/sse/" = true ->
  Worker.fetch transport request tr
  = (transport "/sse" request, (tr ++ [ServeSSE "/sse" (Worker.pathname request)])%list)
  /\ transportCalls (snd (Worker.fetch transport request tr))
     = (transportCalls tr ++ [("/sse", Worker.pathname request)])%list
  /\ Worker.pathname request <> "/sse"
  /\ Worker.fetch transport {| Worker.pathname := "/sse" |} tr
     = (transport "/sse" {| Worker.pathname := "/sse" |},
        (tr ++ [ServeSSE "/sse" "/sse"])%list).
Proof.
  intros Hprefix.
  assert (Hguard : Worker.isSsePath (Worker.pathname request) = true).
  { unfold Worker.isSsePath. rewrite Hprefix. apply orb_true_r. }
  split; [ | split; [ | split ] ].
  - now apply fetch_sse_path.
  - rewrite fetch_sse_path by assumption. cbn [snd].
    rewrite transportCalls_app. reflexivity.
  - intros Heq. rewrite Heq in Hprefix. discriminate Hprefix.
  - reflexivity.
Qed.

(** C10 at the path "/sse/message". *)
Lemma sse_prefix_paths_reach_transport_witness :
  startsWith "/sse/message" "/sse/" = true
  /\ Worker.fetch sampleTransport {| Worker.pathname := "/sse/message" |} []
     = (Returns eventStream, [ServeSSE "/sse" "/sse/message"])
  /\ "/sse/message" <> "/sse"
  /\ Worker.fetch sampleTransport {| Worker.pathname := "/sse" |} []
     = (Returns eventStream, [ServeSSE "/sse" "/sse"]).
Proof.
  split; [ reflexivity | ].
  pose proof (sse_prefix_paths_reach_transport sampleTransport
                {| Worker.pathname := "/sse/message" |} []) as H.
  destruct H as (Hfetch & _ & Hne & Hsse); [ reflexivity | ].
  split; [ exact Hfetch | split; [ exact Hne | exact Hsse ] ].
Defined.

(** ** Further properties of the executor, the handler and the router *)

Lemma slice_from_start (s : string) (n : Z) :
  (0 <= n)%Z ->
  slice s 0 n = substring 0 (Nat.min (Z.to_nat n) (String.length s)) s.
Proof.
  intros Hn. unfold slice, relativeIndex.
  change (0 <? 0)%Z with false. cbv iota.
  destruct (n <? 0)%Z eqn:Hneg; [ apply Z.ltb_lt in Hneg; lia | ].
  f_equal; lia.
Qed.

Lemma substring_0_prefix (m : nat) (s : string) :
  exists rest, s = substring 0 m s ++ rest.
Proof.
  revert m. induction s as [ | c s IH ]; intros [ | m ]; simpl.
  - exists "". reflexivity.
  - exists "". reflexivity.
  - eexists. reflexivity.
  - destruct (IH m) as [rest Hrest]. exists rest. now rewrite <- Hrest.
Qed.

Lemma length_substring_0 (m : nat) (s : string) :
  m <= String.length s -> String.length (substring 0 m s) = m.
Proof.
  revert m. induction s as [ | c s IH ]; intros [ | m ]; simpl; intros H; try lia.
  rewrite IH; lia.
Qed.

Lemma substring_0_all (s : string) : substring 0 (String.length s) s = s.
Proof.
  induction s as [ | c s IH ]; simpl; [ reflexivity | now rewrite IH ].
Qed.

(** [s.slice(0, n)] is the first [min n (length s)] characters of [s]. *)
Lemma slice_from_start_spec (s : string) (n : nat) :
  (exists rest, s = slice s 0 (Z.of_nat n) ++ rest)
  /\ String.length (slice s 0 (Z.of_nat n)) = Nat.min n (String.length s)
  /\ (String.length s <= n -> slice s 0 (Z.of_nat n) = s).
Proof.
  rewrite slice_from_start by lia. rewrite Nat2Z.id.
  split; [ apply substring_0_prefix | split ].
  - apply length_substring_0. lia.
  - intros H. rewrite Nat.min_r by assumption. apply substring_0_all.
Qed.

(** X1: every response whose status lies outside 200..299 (not only those
    from 400 on) and whose body parses as JSON gives a GraphQLHttpError:
    the message names the status, [extensions] holds the status code and
    the parsed body. *)
Theorem non_ok_status_with_json_body_is_http_error net q vars tr r b :
  net PHAROS_GRAPHQL_ENDPOINT (requestInit q vars) = Returns r ->
  (Response.status r < 200 \/ 299 < Response.status r)%Z ->
  Response.json r = Returns b ->
  exists tr',
    executePharosGraphQLQuery net q vars tr
    = (Returns (GraphQLHttpError (Response.status r) b), tr')
    /\ errorMessage (GraphQLHttpError (Response.status r) b)
       = Some (JStr ("Pharos API HTTP Error " ++ Number_toString (Response.status r)))
    /\ errorExtension "statusCode" (GraphQLHttpError (Response.status r) b)
       = Some (JNum (Response.status r))
    /\ errorExtension "responseBody" (GraphQLHttpError (Response.status r) b) = Some b.
Proof.
  intros H Hstatus Hj.
  assert (Hok : Response.ok r = false).
  { unfold Response.ok. apply andb_false_iff.
    destruct Hstatus; [ left | right ]; apply Z.leb_gt; lia. }
  eexists. split; [ apply (execute_http_error net q vars tr r b H Hj Hok) | ].
  repeat split.
Qed.

(** X1 at a response with status 300 and a JSON body. *)
Lemma non_ok_status_with_json_body_is_http_error_witness :
  respondWith (networkResponse 300 (Some (JSON_stringify syntaxErrorBody)))
    PHAROS_GRAPHQL_ENDPOINT (requestInit "{ x }" None)
  = Returns (networkResponse 300 (Some (JSON_stringify syntaxErrorBody)))
  /\ (300 < 200 \/ 299 < 300)%Z
  /\ exists tr',
       executePharosGraphQLQuery
         (respondWith (networkResponse 300 (Some (JSON_stringify syntaxErrorBody))))
         "{ x }" None []
       = (Returns (GraphQLHttpError 300 syntaxErrorBody), tr').
Proof.
  split; [ reflexivity | split; [ lia | ] ].
  destruct (non_ok_status_with_json_body_is_http_error
              (respondWith (networkResponse 300 (Some (JSON_stringify syntaxErrorBody))))
              "{ x }" None []
              (networkResponse 300 (Some (JSON_stringify syntaxErrorBody))) syntaxErrorBody)
    as (tr' & Hexec & _); [ reflexivity | simpl; lia | reflexivity | ].
  exists tr'. exact Hexec.
Defined.

(** X2: the executor always returns, and what it returns is either the
    parsed body of a response with an ok status or an object of the one
    error shape, an [errors] array with a single element that has a string
    [message] and an [extensions] object. *)
Theorem result_is_upstream_body_or_error_object net q vars tr :
  exists result tr',
    executePharosGraphQLQuery net q vars tr = (Returns result, tr')
    /\ ((exists r,
           net PHAROS_GRAPHQL_ENDPOINT (requestInit q vars) = Returns r
           /\ Response.ok r = true
           /\ Response.json r = Returns result)
        \/ errorShape result).
Proof.
  destruct (net PHAROS_GRAPHQL_ENDPOINT (requestInit q vars)) as [ r | e ] eqn:H.
  - destruct (Response.json r) as [ b | e ] eqn:Hj.
    + destruct (Response.ok r) eqn:Hok.
      * eexists _, _. split; [ apply (execute_success net q vars tr r b H Hj Hok) | ].
        left. exists r. auto.
      * eexists _, _. split; [ apply (execute_http_error net q vars tr r b H Hj Hok) | ].
        right. eexists _, _. reflexivity.
    + destruct (Response.text r) as [ t | e' ] eqn:Ht.
      * eexists _, _. split; [ apply (execute_non_json net q vars tr r e t H Hj Ht) | ].
        right. eexists _, _. reflexivity.
      * eexists _, _. split; [ apply (execute_text_throws net q vars tr r e e' H Hj Ht) | ].
        right. eexists _, _. reflexivity.
  - eexists _, _. split; [ apply (execute_fetch_throws net q vars tr e H) | ].
    right. eexists _, _. reflexivity.
Qed.

(** X3: the inner [catch] does not guard its own [response.text()]: when
    [json()] rejects and [text()] rejects too, the outer [catch] reports
    the failure of [text()] as a client-side error; the reason [json()]
    gave and the status code are lost. *)
Theorem body_read_failure_reported_as_client_error net q vars tr r e e' :
  net PHAROS_GRAPHQL_ENDPOINT (requestInit q vars) = Returns r ->
  Response.json r = Throws e ->
  Response.text r = Throws e' ->
  exists tr',
    executePharosGraphQLQuery net q vars tr
    = (Returns (TransportFailure (errorMessageOf e')), tr')
    /\ errorExtension "clientError" (TransportFailure (errorMessageOf e')) = Some (JBool true)
    /\ errorExtension "statusCode" (TransportFailure (errorMessageOf e')) = None.
Proof.
  intros H Hj Ht. eexists.
  split; [ apply (execute_text_throws net q vars tr r e e' H Hj Ht) | split; reflexivity ].
Qed.

(** X3 at a response whose [json()] and [text()] both reject. *)
Lemma body_read_failure_reported_as_client_error_witness :
  respondWith unreadable PHAROS_GRAPHQL_ENDPOINT (requestInit "{ x }" None)
  = Returns unreadable
  /\ Response.json unreadable = Throws (ThrownError "Unexpected end of JSON input")
  /\ Response.text unreadable = Throws (ThrownOther "stream reset")
  /\ exists tr',
       executePharosGraphQLQuery (respondWith unreadable) "{ x }" None []
       = (Returns (TransportFailure "stream reset"), tr').
Proof.
  split; [ reflexivity | split; [ reflexivity | split; [ reflexivity | ] ] ].
  destruct (body_read_failure_reported_as_client_error (respondWith unreadable)
              "{ x }" None [] unreadable
              (ThrownError "Unexpected end of JSON input") (ThrownOther "stream reset"))
    as (tr' & Hexec & _); [ reflexivity | reflexivity | reflexivity | ].
  exists tr'. exact Hexec.
Defined.

(** X4: a response with a null body is reported as a non-JSON response
    with an empty text, whatever its status, a 2xx status included. *)
Theorem null_body_is_non_json_whatever_status (status : Z) q vars tr :
  exists tr',
    executePharosGraphQLQuery (respondWith (networkResponse status None)) q vars tr
    = (Returns (NonJsonResponse status ""), tr')
    /\ errorExtension "statusCode" (NonJsonResponse status "") = Some (JNum status)
    /\ errorExtension "responseText" (NonJsonResponse status "") = Some (JStr "").
Proof.
  eexists. split; [ | split; reflexivity ].
  apply (execute_non_json (respondWith (networkResponse status None)) q vars tr
           (networkResponse status None) (ThrownError "Unexpected token in JSON") "");
    reflexivity.
Qed.

(** A body that cannot be JSON is not read as JSON. *)
Lemma cannotBeJson_not_parsed (b : string) :
  cannotBeJson b = true -> JSON_parse b = None.
Proof.
  unfold cannotBeJson, JSON_parse. intros H.
  destruct (String.length b) as [ | fuel ]; [ reflexivity | ].
  rewrite parseValue_S.
  destruct (skipWhitespace b) as [ | c rest ]; [ reflexivity | ].
  apply negb_true_iff in H. revert H.
  destruct c as [[|] [|] [|] [|] [|] [|] [|] [|]]; intros H;
    first [ discriminate H | reflexivity ].
Qed.

(** X5: for a network response that has a body, the non-JSON branch is
    never completed: whatever the status, a body that cannot be JSON (an
    HTML page, plain text, an empty body) ends in the client-side error of
    the second read, without status code. *)
Theorem consumed_body_never_yields_non_json_response (status : Z) (b : string) q vars tr :
  cannotBeJson b = true ->
  exists message tr',
    executePharosGraphQLQuery (respondWith (networkResponse status (Some b))) q vars tr
    = (Returns (TransportFailure message), tr')
    /\ ~ isNonJsonResponse (TransportFailure message)
    /\ errorExtension "statusCode" (TransportFailure message) = None.
Proof.
  intros Hb. apply cannotBeJson_not_parsed in Hb.
  eexists _, _. split; [ | split ].
  - apply (execute_text_throws (respondWith (networkResponse status (Some b))) q vars tr
             (networkResponse status (Some b))
             (ThrownError "Unexpected token in JSON")
             (ThrownError "Body has already been used.")).
    + reflexivity.
    + simpl. now rewrite Hb.
    + reflexivity.
  - intros (s & t & H). discriminate H.
  - reflexivity.
Qed.

(** X5 at a response with status 200 and a plain-text body. *)
Lemma consumed_body_never_yields_non_json_response_witness :
  cannotBeJson "Service Unavailable" = true
  /\ exists message tr',
       executePharosGraphQLQuery
         (respondWith (networkResponse 200 (Some "Service Unavailable"))) "{ x }" None []
       = (Returns (TransportFailure message), tr')
       /\ ~ isNonJsonResponse (TransportFailure message)
       /\ errorExtension "statusCode" (TransportFailure message) = None.
Proof.
  split; [ reflexivity | ].
  apply (consumed_body_never_yields_non_json_response 200 "Service Unavailable"
           "{ x }" None []).
  reflexivity.
Defined.

(** X6: when the text of a non-JSON body is read, [responseText] is its
    first [min 1000 length] characters, the whole text when it has at most
    1000, and the diagnostic line carries its first [min 500 length]
    characters. *)
Theorem non_json_text_is_truncated_prefix net q vars tr r e t :
  net PHAROS_GRAPHQL_ENDPOINT (requestInit q vars) = Returns r ->
  Response.json r = Throws e ->
  Response.text r = Returns t ->
  exists result tr' captured preview,
    executePharosGraphQLQuery net q vars tr = (Returns result, tr')
    /\ errorExtension "responseText" result = Some (JStr captured)
    /\ (exists rest, t = captured ++ rest)
    /\ String.length captured = Nat.min 1000 (String.length t)
    /\ (String.length t <= 1000 -> captured = t)
    /\ In (ConsoleError ("Pharos API response is not JSON. Status: "
                         ++ Number_toString (Response.status r)
                         ++ ", Body: " ++ preview)) tr'
    /\ (exists rest, t = preview ++ rest)
    /\ String.length preview = Nat.min 500 (String.length t).
Proof.
  intros H Hj Ht.
  destruct (slice_from_start_spec t 1000) as (Hpre & Hlen & Hall).
  destruct (slice_from_start_spec t 500) as (Hpre' & Hlen' & _).
  exists (NonJsonResponse (Response.status r) t). eexists.
  exists (slice t 0 1000), (slice t 0 500).
  split; [ apply (execute_non_json net q vars tr r e t H Hj Ht) | ].
  split; [ reflexivity | ].
  split; [ exact Hpre | split; [ exact Hlen | split; [ exact Hall | ] ] ].
  split; [ | split; [ exact Hpre' | exact Hlen' ] ].
  apply in_or_app. right. apply in_or_app. right. right. left. reflexivity.
Qed.

(** X6 at a response with status 500 whose text is delivered. *)
Lemma non_json_text_is_truncated_prefix_witness :
  respondWith readableHtml PHAROS_GRAPHQL_ENDPOINT (requestInit "{ x }" None)
  = Returns readableHtml
  /\ Response.json readableHtml = Throws (ThrownError "Unexpected token in JSON")
  /\ Response.text readableHtml = Returns htmlBody
  /\ exists result tr' captured,
       executePharosGraphQLQuery (respondWith readableHtml) "{ x }" None []
       = (Returns result, tr')
       /\ errorExtension "responseText" result = Some (JStr captured)
       /\ String.length captured = Nat.min 1000 (String.length htmlBody).
Proof.
  split; [ reflexivity | split; [ reflexivity | split; [ reflexivity | ] ] ].
  destruct (non_json_text_is_truncated_prefix (respondWith readableHtml) "{ x }" None []
              readableHtml (ThrownError "Unexpected token in JSON") htmlBody)
    as (result & tr' & captured & preview & Hexec & Hext & _ & Hlen & _);
    [ reflexivity | reflexivity | reflexivity | ].
  exists result, tr', captured. auto.
Defined.

(** X7: what the handler writes before the request is sent is two or three
    diagnostic lines, each at most 246 characters long, whatever the size
    of the query and of the variables. *)
Theorem handler_diagnostics_before_request_are_bounded net inv tr :
  exists before after,
    snd (pharos_graphql_query net inv tr)
    = (tr ++ before
          ++ Fetch PHAROS_GRAPHQL_ENDPOINT (requestInit (query inv) (variables inv))
          :: after)%list
    /\ requestsSent before = []
    /\ Forall (fun ev => exists line, ev = ConsoleError line /\ String.length line <= 246)
              before
    /\ 2 <= List.length before <= 3.
Proof.
  destruct (execute_returns net (query inv) (variables inv) (tr ++ handlerLog inv)%list)
    as (result & tail & Hexec & _).
  exists (handlerLog inv
          ++ [ConsoleError ("Making GraphQL request to: " ++ PHAROS_GRAPHQL_ENDPOINT)])%list,
         tail.
  pose proof (length_slice_from_start (query inv) 200) as Hq.
  split; [ | split; [ | split ] ].
  - rewrite handler_runs_executor, Hexec. cbn [snd]. unfold executorLog.
    rewrite <- !app_assoc. reflexivity.
  - rewrite requestsSent_app, requestsSent_handlerLog. reflexivity.
  - apply Forall_app. split.
    + unfold handlerLog. constructor.
      * eexists. split; [ reflexivity | ].
        rewrite !length_append. simpl String.length. lia.
      * destruct (variables inv) as [ vs | ]; constructor; [ | constructor ].
        eexists. split; [ reflexivity | ].
        pose proof (length_slice_from_start (JSON_stringify (JObj vs)) 150).
        rewrite !length_append. simpl String.length. lia.
    + constructor; [ | constructor ].
      eexists. split; [ reflexivity | ]. simpl. lia.
  - rewrite length_app. unfold handlerLog.
    destruct (variables inv); simpl; lia.
Qed.


(** X11: the arguments of a tool call are accepted, with invocation [inv],
    exactly when their [query] property is the string [query inv] and
    their [variables] property is absent or the object [variables inv]: a
    missing or non-string query and variables that are not an object are
    rejected, other properties are ignored, the values are taken as they
    are. *)
Theorem arguments_accepted_iff_well_typed (args : list (string * Json))
    (inv : Invocation) :
  parseArguments args = Some inv
  <-> lookup "query" args = Some (JStr (query inv))
      /\ lookup "variables" args = option_map JObj (variables inv).
Proof.
  unfold parseArguments, inputSchema. cbn [forallb fst snd zodAccepts].
  split.
  - destruct (lookup "query" args) as [ [ | | | q | | ] | ];
      cbn [andb]; try discriminate.
    destruct (lookup "variables" args) as [ [ | | | | | vs ] | ];
      cbn [andb]; try discriminate.
    + destruct (forallb _ vs && true); intros [= <-]; auto.
    + intros [= <-]. auto.
  - intros [Hq Hv]. rewrite Hq, Hv. destruct inv as [q [ vs | ]]; cbn.
    + rewrite forallb_any. reflexivity.
    + reflexivity.
Qed.

(** X12: the prefix test is on the path segment: a path that continues
    "/sse" with anything but a slash gets the 404 and never reaches the
    transport. *)
Theorem sse_lookalike_paths_get_404 transport (suffix : string) tr :
  suffix <> "" ->
  startsWith suffix "/" = false ->
  Worker.fetch transport {| Worker.pathname := "/sse" ++ suffix |} tr
  = (Returns Worker.notFound,
     (tr ++ [notFoundLog {| Worker.pathname := "/sse" ++ suffix |}])%list)
  /\ transportCalls (snd (Worker.fetch transport
                            {| Worker.pathname := "/sse" ++ suffix |} tr))
     = transportCalls tr.
Proof.
  intros Hne Hslash.
  assert (Hguard : Worker.isSsePath ("/sse" ++ suffix) = false).
  { unfold Worker.isSsePath, startsWith in *.
    destruct suffix as [ | c suffix ]; [ congruence | ].
    apply orb_false_iff. split.
    - apply String.eqb_neq. discriminate.
    - exact Hslash. }
  rewrite (fetch_other_path transport {| Worker.pathname := "/sse" ++ suffix |} tr Hguard).
  split; [ reflexivity | ].
  cbn [snd]. rewrite transportCalls_app. simpl. apply List.app_nil_r.
Qed.

(** X12 at the path '/sse-admin'. *)
Lemma sse_lookalike_paths_get_404_witness :
  "-admin" <> ""
  /\ startsWith "-admin" "/" = false
  /\ Worker.fetch sampleTransport {| Worker.pathname := "/sse-admin" |} []
     = (Returns Worker.notFound, [notFoundLog {| Worker.pathname := "/sse-admin" |}]).
Proof.
  split; [ discriminate | split; [ reflexivity | ] ].
  apply (sse_lookalike_paths_get_404 sampleTransport "-admin" []);
    [ discriminate | reflexivity ].
Defined.

(** X13: the router has no [catch]: when the transport rejects, so does
    [fetch], after the one call to the transport. *)
Theorem router_does_not_catch_transport_errors transport request tr e :
  Worker.isSsePath (Worker.pathname request) = true ->
  transport "/sse" request = Throws e ->
  Worker.fetch transport request tr
  = (Throws e, (tr ++ [ServeSSE "/sse" (Worker.pathname request)])%list).
Proof.
  intros Hguard Hthrow. rewrite fetch_sse_path by assumption. now rewrite Hthrow.
Qed.

(** X13 at the path '/sse' with a transport that rejects. *)
Lemma router_does_not_catch_transport_errors_witness :
  Worker.isSsePath "/sse" = true
  /\ failingTransport "/sse" {| Worker.pathname := "/sse" |}
     = Throws (ThrownError "transport closed")
  /\ Worker.fetch failingTransport {| Worker.pathname := "/sse" |} []
     = (Throws (ThrownError "transport closed"), [ServeSSE "/sse" "/sse"]).
Proof.
  split; [ reflexivity | split; [ reflexivity | ] ].
  apply (router_does_not_catch_transport_errors failingTransport
           {| Worker.pathname := "/sse" |} [] (ThrownError "transport closed"));
    reflexivity.
Defined.
